(** * redoo: the delivery tracker's cache/remote reconciliation and earnings

    A shallow embedding of the core of [src/components/Home.tsx]: the
    earnings computation, the row/record mapping, the date-descending merge
    rule, the local cache, the three reconciliation operations
    ([syncFromRemote], [upsertDelivery], [deleteDelivery]) and the list
    filter, together with the part of the JavaScript semantics they rest on
    (number coercion, truthiness, string comparison, [Array.prototype.sort],
    [Date.prototype.toISOString]). *)

From Stdlib Require Import ZArith String Ascii Floats.
From stdpp Require Import base decidable option list sorting strings gmap.

Local Open Scope Z_scope.

(** ** JavaScript primitives *)

(** A JavaScript string is the sequence of its UTF-16 code units.  The
    embedding covers the strings whose code units are below 256 (dates,
    identifiers and numerals are such strings): one [ascii] is one code
    unit, and [String.compare], which orders strings lexicographically by
    the numeric value of their characters, is the order of [<] and [>]. *)
Module JS.

(** *** Numbers: IEEE 754 binary64, the kernel's [float] *)

Definition number := float.

(** [x || 0] on a number: [NaN], [+0] and [-0] are falsy. *)
Definition number_truthy (x : number) : bool :=
  negb (PrimFloat.is_nan x || PrimFloat.is_zero x).

(** *** String to number ([StringToNumber] of ECMA-262) *)

(** [StrWhiteSpaceChar] below U+0100: TAB, LF, VT, FF, CR, SP, NBSP. *)
Definition is_white (c : ascii) : bool :=
  let n := N_of_ascii c in
  ((9 <=? n) && (n <=? 13) || (n =? 32) || (n =? 160))%N.

Fixpoint trim_start (s : string) : string :=
  match s with
  | String c s' => if is_white c then trim_start s' else s
  | EmptyString => EmptyString
  end.

(** Drops trailing white space; [trim_end s] is empty when [s] is all
    white space. *)
Fixpoint trim_end (s : string) : string :=
  match s with
  | String c s' =>
      match trim_end s' with
      | EmptyString => if is_white c then EmptyString else String c EmptyString
      | t => String c t
      end
  | EmptyString => EmptyString
  end.

Definition trim (s : string) : string := trim_end (trim_start s).

(** The value of a digit in base [b] (at most 16), if it is one. *)
Definition digit_of (b : Z) (c : ascii) : option Z :=
  let n := Z.of_N (N_of_ascii c) in
  let v := if (48 <=? n) && (n <=? 57) then n - 48
           else if (97 <=? n) && (n <=? 102) then n - 87
           else if (65 <=? n) && (n <=? 70) then n - 55
           else 16 in
  if v <? b then Some v else None.

(** Reads the longest prefix of base-[b] digits: its value (continuing
    [acc]), how many digits were read, and the rest of the string. *)
Fixpoint read_digits (b : Z) (acc : Z) (cnt : Z) (s : string) : Z * Z * string :=
  match s with
  | String c s' =>
      match digit_of b c with
      | Some v => read_digits b (acc * b + v) (cnt + 1) s'
      | None => (acc, cnt, s)
      end
  | EmptyString => (acc, cnt, s)
  end.

(** Rounds [m * 10^e] (with [m >= 0]; [neg] gives the sign) to the
    nearest binary64 number, ties to even. *)
Definition round_decimal (neg : bool) (m e : Z) : number :=
  match m with
  | Zpos p =>
      if 0 <=? e
      then SF2Prim (binary_normalize prec emax
                      ((if neg then - m else m) * 10 ^ e) 0 false)
      else SF2Prim (SFdiv prec emax (S754_finite neg p 0)
                      (S754_finite false (Z.to_pos (10 ^ (- e))) 0))
  | _ => if neg then neg_zero else zero
  end.

(** [ExponentPart_opt] followed by the end of the string. *)
Definition read_exponent (s : string) : option Z :=
  match s with
  | EmptyString => Some 0
  | String c s' =>
      if (c =? "e")%char || (c =? "E")%char then
        let '(neg, s'') :=
          match s' with
          | String "+"%char t => (false, t)
          | String "-"%char t => (true, t)
          | _ => (false, s')
          end in
        match read_digits 10 0 0 s'' with
        | (v, cnt, EmptyString) =>
            if 0 <? cnt then Some (if neg then - v else v) else None
        | _ => None
        end
      else None
  end.

(** [StrUnsignedDecimalLiteral]. *)
Definition unsigned_decimal (neg : bool) (s : string) : number :=
  if (s =? "Infinity")%string then (if neg then neg_infinity else infinity)
  else
    let '(ip, n1, r1) := read_digits 10 0 0 s in
    let '(m, n2, r2) :=
      match r1 with
      | String "."%char t => read_digits 10 ip 0 t
      | _ => (ip, 0, r1)
      end in
    if 0 <? n1 + n2 then
      match read_exponent r2 with
      | Some e => round_decimal neg m (e - n2)
      | None => nan
      end
    else nan.

(** [NonDecimalIntegerLiteral] after its two-character prefix. *)
Definition non_decimal (b : Z) (s : string) : number :=
  match read_digits b 0 0 s with
  | (v, cnt, EmptyString) =>
      if 0 <? cnt then SF2Prim (binary_normalize prec emax v 0 false) else nan
  | _ => nan
  end.

Definition StringToNumber (s : string) : number :=
  match trim s with
  | EmptyString => zero
  | String "0"%char (String c t) as lit =>
      if (c =? "x")%char || (c =? "X")%char then non_decimal 16 t
      else if (c =? "o")%char || (c =? "O")%char then non_decimal 8 t
      else if (c =? "b")%char || (c =? "B")%char then non_decimal 2 t
      else unsigned_decimal false lit
  | String "+"%char t => unsigned_decimal false t
  | String "-"%char t => unsigned_decimal true t
  | lit => unsigned_decimal false lit
  end.

(** *** Values *)

(** The primitive values a number-typed field can hold at run time (the
    fields are read back from JSON text and from wire rows, and the
    code coerces them with [Number]). *)
Inductive value : Type :=
| Undefined
| Null
| Bool (b : bool)
| Num (x : number)
| Str (s : string).
Arguments Num x%_float.
Arguments Str s%_string.

Definition ToBoolean (v : value) : bool :=
  match v with
  | Undefined | Null => false
  | Bool b => b
  | Num x => number_truthy x
  | Str s => negb (s =? "")%string
  end.

(** [Number(v)]. *)
Definition Number (v : value) : number :=
  match v with
  | Undefined => nan
  | Null => zero
  | Bool b => if b then one else zero
  | Num x => x
  | Str s => StringToNumber s
  end.

(** [a && b] and [a || b] return one of their operands. *)
Definition and_ (a b : value) : value := if ToBoolean a then b else a.
Definition or_ (a b : value) : value := if ToBoolean a then a else b.

(** [a ?? b]. *)
Definition nullish (a b : value) : value :=
  match a with Undefined | Null => b | _ => a end.

(** [v > n] for a number [n]: the operands are compared as numbers, and
    a comparison with [NaN] is false. *)
Definition gt_num (v : value) (n : number) : bool := PrimFloat.ltb n (Number v).
Arguments gt_num v n%_float.

(** [<], [>], [<=] and [>=] on two strings: code units are compared. *)
Definition lt_str (a b : string) : bool := String.ltb a b.
Definition gt_str (a b : string) : bool := String.ltb b a.
Definition le_str (a b : string) : bool := negb (String.ltb b a).
Definition ge_str (a b : string) : bool := negb (String.ltb a b).

(** [String.prototype.toLowerCase] on code units below U+0100: the
    letters A-Z and the capital letters of U+00C0-U+00DE. *)
Definition lower_char (c : ascii) : ascii :=
  let n := N_of_ascii c in
  if ((65 <=? n) && (n <=? 90) || (192 <=? n) && (n <=? 222) && negb (n =? 215))%N
  then ascii_of_N (n + 32) else c.

Fixpoint toLowerCase (s : string) : string :=
  match s with
  | String c s' => String (lower_char c) (toLowerCase s')
  | EmptyString => EmptyString
  end.

(** [s.includes(q)]. *)
Fixpoint includes (s q : string) : bool :=
  String.prefix q s ||
  match s with
  | String _ s' => includes s' q
  | EmptyString => false
  end.

(** [parts.join(sep)]; a part that is [undefined] joins as the empty
    string. *)
Fixpoint join (sep : string) (parts : list (option string)) : string :=
  match parts with
  | [] => EmptyString
  | [p] => default EmptyString p
  | p :: rest => (default EmptyString p ++ sep ++ join sep rest)%string
  end.

(** [s.slice(0, n)]. *)
Definition slice0 (n : nat) (s : string) : string := String.substring 0 n s.

(** [x || 0] for a number [x]: what [or_ (Num x) (Num 0)] holds. *)
Definition or0 (x : number) : number := if number_truthy x then x else zero.

End JS.

(** ** Types *)

Inductive Status : Type := pending | completed | aborted | cancelled.

(** [Delivery], and [Draft = Omit<Delivery, 'id'> & { id?: string }]: the
    two differ in the type of [id] only. *)
Record DeliveryOf (I : Type) : Type := mkDelivery {
  id : I;
  dateISO : string;
  carMake : string;
  carModel : string;
  reg : string;
  pickup : string;
  dropoff : string;
  distanceKm : JS.value;
  ratePerKm : JS.value;
  fixedFee : JS.value;
  transportExpense : JS.value;
  earnings : JS.value;
  status : Status;
  notes : option string;
}.
Arguments mkDelivery {I}.
Arguments id {I}.
Arguments dateISO {I}.
Arguments carMake {I}.
Arguments carModel {I}.
Arguments reg {I}.
Arguments pickup {I}.
Arguments dropoff {I}.
Arguments distanceKm {I}.
Arguments ratePerKm {I}.
Arguments fixedFee {I}.
Arguments transportExpense {I}.
Arguments earnings {I}.
Arguments status {I}.
Arguments notes {I}.

Definition Delivery : Type := DeliveryOf string.
Definition Draft : Type := DeliveryOf (option string).

(** ** Earnings *)

(** The first statement of [upsertDelivery]:
    [input.earnings && input.earnings > 0 ? input.earnings
       : (Number(input.distanceKm) || 0) * (Number(input.ratePerKm) || 0)
         + (Number(input.fixedFee) || 0)]. *)
Definition computeEarnings (distance rate fixedFee manualOverride : JS.value) : JS.value :=
  if JS.ToBoolean (JS.and_ manualOverride (JS.Bool (JS.gt_num manualOverride 0)))
  then manualOverride
  else JS.Num (JS.or0 (JS.Number distance) * JS.or0 (JS.Number rate)
               + JS.or0 (JS.Number fixedFee))%float.

(** ** The wire shape and the mapping to and from it *)

(** [DeliveryRow]: a row of the remote table [deliveries]. *)
Module DeliveryRow.
Record t : Type := mk {
  id : string;
  user_id : string;
  date_iso : string;
  car_make : option string;
  car_model : option string;
  reg : option string;
  pickup : option string;
  dropoff : option string;
  distance_km : JS.value;
  rate_per_km : JS.value;
  fixed_fee : JS.value;
  transport_expense : JS.value;
  earnings : JS.value;
  status : option Status;
  notes : option string;
}.
End DeliveryRow.

(** [Partial<DeliveryRow> & { user_id: string }] as [draftToRow] builds it:
    every column but [id] is present. *)
Module Payload.
Record t : Type := mk {
  id : option string;
  user_id : string;
  date_iso : string;
  car_make : string;
  car_model : string;
  reg : string;
  pickup : string;
  dropoff : string;
  distance_km : JS.number;
  rate_per_km : JS.number;
  fixed_fee : JS.number;
  transport_expense : JS.number;
  earnings : JS.value;
  status : Status;
  notes : string;
}.
End Payload.

(** [s || ''] for a nullable string. *)
Definition or_empty (s : option string) : string := default EmptyString s.

(** [Number(v ?? 0)]. *)
Definition number_or_zero (v : JS.value) : JS.value :=
  JS.Num (JS.Number (JS.nullish v (JS.Num 0))).

Definition rowToDelivery (r : DeliveryRow.t) : Delivery :=
  {| id := DeliveryRow.id r;
     dateISO := DeliveryRow.date_iso r;
     carMake := or_empty (DeliveryRow.car_make r);
     carModel := or_empty (DeliveryRow.car_model r);
     reg := or_empty (DeliveryRow.reg r);
     pickup := or_empty (DeliveryRow.pickup r);
     dropoff := or_empty (DeliveryRow.dropoff r);
     distanceKm := number_or_zero (DeliveryRow.distance_km r);
     ratePerKm := number_or_zero (DeliveryRow.rate_per_km r);
     fixedFee := number_or_zero (DeliveryRow.fixed_fee r);
     transportExpense := number_or_zero (DeliveryRow.transport_expense r);
     earnings := number_or_zero (DeliveryRow.earnings r);
     status := default pending (DeliveryRow.status r);
     notes := Some (or_empty (DeliveryRow.notes r)) |}.

(** [draftToRow(input, userId, computed, id)]; the column [id] is set when
    the argument [id] is truthy, that is a string that is not empty. *)
Definition draftToRow (input : Draft) (userId : string) (computed : JS.value)
    (id' : option string) : Payload.t :=
  {| Payload.id := match id' with
                   | Some i => if String.eqb i "" then None else Some i
                   | None => None
                   end;
     Payload.user_id := userId;
     Payload.date_iso := dateISO input;
     Payload.car_make := carMake input;
     Payload.car_model := carModel input;
     Payload.reg := reg input;
     Payload.pickup := pickup input;
     Payload.dropoff := dropoff input;
     Payload.distance_km := JS.or0 (JS.Number (distanceKm input));
     Payload.rate_per_km := JS.or0 (JS.Number (ratePerKm input));
     Payload.fixed_fee := JS.or0 (JS.Number (fixedFee input));
     Payload.transport_expense := JS.or0 (JS.Number (transportExpense input));
     Payload.earnings := computed;
     Payload.status := status input;
     Payload.notes := or_empty (notes input) |}.

(** ** Sorting *)

(** [Array.prototype.sort] with a comparator: the result is the stable
    sort of the array, [a] going before [b] when [cmp a b < 0] and the
    relative order of [a] and [b] being kept when [cmp a b = 0].  The
    algorithm is the engine's; a stable sort by a consistent comparator has
    one result, computed here by insertion. *)
Section Array_sort.
Context {A : Type} (cmp : A → A → Z).

Fixpoint sort_insert (x : A) (l : list A) : list A :=
  match l with
  | [] => [x]
  | y :: l' => if cmp x y <=? 0 then x :: l else y :: sort_insert x l'
  end.

Fixpoint Array_sort (l : list A) : list A :=
  match l with
  | [] => []
  | x :: l' => sort_insert x (Array_sort l')
  end.

(** The order the comparator stands for: [x] may go before [y]. *)
Definition before (x y : A) : Prop := cmp x y <= 0.
End Array_sort.

(** The comparator of [sortByDateDesc]:
    [(a, b) => (a.dateISO < b.dateISO ? 1 : a.dateISO > b.dateISO ? -1 : 0)]. *)
Definition byDateDesc (a b : Delivery) : Z :=
  if JS.lt_str (dateISO a) (dateISO b) then 1
  else if JS.gt_str (dateISO a) (dateISO b) then -1
  else 0.

Definition sortByDateDesc (l : list Delivery) : list Delivery :=
  Array_sort byDateDesc l.

(** ** The world of the screen *)

(** What is thrown and caught: an object whose [message] may be missing. *)
Record Error : Type := mkError { message : option string }.

Inductive Result (A : Type) : Type :=
| Ok (a : A)
| Throw (e : Error).
Arguments Ok {A}.
Arguments Throw {A}.

(** What awaiting a call of the remote store gives: the promise rejects, or
    it resolves to [{ data, error }], each of which may be [null]. *)
Inductive Reply (A : Type) : Type :=
| Rejected (e : Error)
| Resolved (data : option A) (error : option Error).
Arguments Rejected {A}.
Arguments Resolved {A}.

Record User : Type := mkUser { user_id : string }.
Record Session : Type := mkSession { user : User }.

(** The state the operations read and write: the component's [deliveries]
    and [session], the device's key-value storage, and the notices shown
    with [Alert.alert] (title and message, latest first). *)
Record World : Type := mkWorld {
  deliveries : list Delivery;
  session : option Session;
  storage : gmap string string;
  alerts : list (string * string);
}.

(** An asynchronous function of the screen: it runs from a world to a
    world, and returns or throws. *)
Definition M (A : Type) : Type := World → Result A * World.

Definition ret {A} (a : A) : M A := λ w, (Ok a, w).
Definition throw {A} (e : Error) : M A := λ w, (Throw e, w).
Definition bind {A B} (c : M A) (k : A → M B) : M B :=
  λ w, match c w with
       | (Ok a, w') => k a w'
       | (Throw e, w') => (Throw e, w')
       end.
(** [try { c } catch (e) { h e }]. *)
Definition try_catch {A} (c : M A) (h : Error → M A) : M A :=
  λ w, match c w with
       | (Ok a, w') => (Ok a, w')
       | (Throw e, w') => h e w'
       end.

Notation "'let*' x ':=' c 'in' k" := (bind c (λ x, k))
  (at level 10, x pattern, c at level 100, k at level 200).
Notation "c ';;' k" := (bind c (λ _, k))
  (at level 100, k at level 200, right associativity).

Definition getDeliveries : M (list Delivery) := λ w, (Ok (deliveries w), w).
Definition getSession : M (option Session) := λ w, (Ok (session w), w).
Definition setDeliveries (next : list Delivery) : M unit :=
  λ w, (Ok (), mkWorld next (session w) (storage w) (alerts w)).
Definition AsyncStorage_getItem (key : string) : M (option string) :=
  λ w, (Ok (storage w !! key), w).
Definition AsyncStorage_setItem (key text : string) : M unit :=
  λ w, (Ok (), mkWorld (deliveries w) (session w) (<[key := text]> (storage w)) (alerts w)).
Definition Alert_alert (title msg : string) : M unit :=
  λ w, (Ok (), mkWorld (deliveries w) (session w) (storage w) ((title, msg) :: alerts w)).

Definition STORAGE_KEY : string := "car_delivery_tracker__deliveries_v1".

(** What [JSON.parse] returns, read at the type the code gives it
    ([Delivery[]]): an array, or a value that is not an array. *)
Inductive Parsed : Type :=
| ParsedArray (l : list Delivery)
| ParsedOther.

(** [e?.message ?? fallback]. *)
Definition message_or (e : Error) (fallback : string) : string :=
  default fallback (message e).

(** [if (error) throw error] on a resolved reply, then its [data]. *)
Definition data_of {A} (r : Reply A) : M (option A) :=
  match r with
  | Rejected e => throw e
  | Resolved _ (Some e) => throw e
  | Resolved data None => ret data
  end.

Section Screen.
(** [JSON.parse] (it throws a [SyntaxError] on text that is not JSON) and
    [JSON.stringify]. *)
Variable JSON_parse : string → Result Parsed.
Variable JSON_stringify : list Delivery → string.
(** The remote store: what the three queries of the screen are answered
    with. *)
Variable select_deliveries : string → Reply (list DeliveryRow.t).
Variable upsert_delivery : Payload.t → Reply DeliveryRow.t.
Variable delete_delivery : string → string → Reply unit.
(** The [TypeError] the engine throws on a property access on [null]. *)
Variable null_access : Error.

Definition loadCache : M (list Delivery) :=
  let* raw := AsyncStorage_getItem STORAGE_KEY in
  match raw with
  | None => ret []
  | Some text =>
      if String.eqb text "" then ret []
      else try_catch
             (let* parsed := (λ w, (JSON_parse text, w)) in
              ret (match parsed with ParsedArray l => l | ParsedOther => [] end))
             (λ _, ret [])
  end.

Definition saveCache (l : list Delivery) : M unit :=
  AsyncStorage_setItem STORAGE_KEY (JSON_stringify l).

(** The effect of the first render: the cache is shown when it is not
    empty. *)
Definition initialLoad : M unit :=
  let* cached := loadCache in
  match cached with
  | [] => ret ()
  | _ => setDeliveries (sortByDateDesc cached)
  end.

Definition fetchDeliveries (userId : string) : M (list Delivery) :=
  let* data := data_of (select_deliveries userId) in
  match data with
  | Some rows => ret (rowToDelivery <$> rows)
  | None => throw null_access
  end.

Definition syncFromRemote (alertOnError : bool) : M unit :=
  try_catch
    (let* s := getSession in
     match s with
     | None => ret ()
     | Some sess =>
         let* remote := fetchDeliveries (user_id (user sess)) in
         let next := sortByDateDesc remote in
         setDeliveries next;;
         saveCache next
     end)
    (λ e, if alertOnError
          then Alert_alert "Sync failed" (message_or e "Please try again later")
          else ret ()).

(** [{ ...(input as Delivery), id, earnings: computed }]. *)
Definition localRecord (input : Draft) (id' : string) (computed : JS.value) : Delivery :=
  {| id := id';
     dateISO := dateISO input;
     carMake := carMake input;
     carModel := carModel input;
     reg := reg input;
     pickup := pickup input;
     dropoff := dropoff input;
     distanceKm := distanceKm input;
     ratePerKm := ratePerKm input;
     fixedFee := fixedFee input;
     transportExpense := transportExpense input;
     earnings := computed;
     status := status input;
     notes := notes input |}.

(** The merge rule: [sortByDateDesc([rec, ...deliveries.filter((d) => d.id !== rec.id)])]. *)
Definition merge (rec : Delivery) (ds : list Delivery) : list Delivery :=
  sortByDateDesc (rec :: filter (λ d, id d ≠ id rec) ds).

(** [upsertDelivery(input)]; [uuid] is what [uuidv4()] returns when it is
    called.  [deliveries] and [session] are the values the function closed
    over. *)
Definition upsertDelivery (uuid : string) (input : Draft) : M string :=
  let computed := computeEarnings (distanceKm input) (ratePerKm input)
                    (fixedFee input) (earnings input) in
  let* ds := getDeliveries in
  let* s := getSession in
  match s with
  | Some sess =>
      let id' := default uuid (id input) in
      try_catch
        (let payload := draftToRow input (user_id (user sess)) computed
                          (Some (default id' (id input))) in
         let* data := data_of (upsert_delivery payload) in
         match data with
         | None => throw null_access
         | Some row =>
             let saved := rowToDelivery row in
             let next := merge saved ds in
             setDeliveries next;;
             saveCache next;;
             ret (id saved)
         end)
        (λ e,
           Alert_alert "Save failed" (message_or e "Unable to save to Supabase");;
           let localId := default id' (id input) in
           let local := localRecord input localId computed in
           let next := merge local ds in
           setDeliveries next;;
           saveCache next;;
           ret localId)
  | None =>
      let id' := default uuid (id input) in
      let local := localRecord input id' computed in
      let next := merge local ds in
      setDeliveries next;;
      saveCache next;;
      ret id'
  end.

Definition deleteDelivery (id' : string) : M unit :=
  let* ds := getDeliveries in
  let* s := getSession in
  match s with
  | Some sess =>
      try_catch
        (let* _ := data_of (delete_delivery id' (user_id (user sess))) in ret ())
        (λ e, Alert_alert "Delete failed" (message_or e "Unable to delete in Supabase"))
  | None => ret ()
  end;;
  let next := filter (λ d, id d ≠ id') ds in
  setDeliveries next;;
  saveCache next.

End Screen.

(** ** Dates *)

(** A [Date] holds a time value: milliseconds since 1970-01-01T00:00:00Z,
    or [NaN] ([None]).  The functions are those of ECMA-262 21.4.1. *)
Module Date.

Definition msPerDay : Z := 86400000.
Definition Day (t : Z) : Z := t `div` msPerDay.
Definition TimeWithinDay (t : Z) : Z := t `mod` msPerDay.
Definition WeekDay (t : Z) : Z := (Day t + 4) `mod` 7.

(** The proleptic Gregorian date (year, month 0-11, day 1-31) of a day
    number, by the era/day-of-era computation; [Z.div] rounds down. *)
Definition civil (day : Z) : Z * Z * Z :=
  let z := day + 719468 in
  let era := z `div` 146097 in
  let doe := z - era * 146097 in
  let yoe := (doe - doe `div` 1460 + doe `div` 36524 - doe `div` 146096) `div` 365 in
  let doy := doe - (365 * yoe + yoe `div` 4 - yoe `div` 100) in
  let mp := (5 * doy + 2) `div` 153 in
  let d := doy - (153 * mp + 2) `div` 5 + 1 in
  let m := if mp <? 10 then mp + 2 else mp - 10 in
  (yoe + era * 400 + (if m <=? 1 then 1 else 0), m, d).

Definition YearFromTime (t : Z) : Z := (civil (Day t)).1.1.
Definition MonthFromTime (t : Z) : Z := (civil (Day t)).1.2.
Definition DateFromTime (t : Z) : Z := (civil (Day t)).2.

(** [MakeDay(year, month, date)]: the day number of the first of the
    month, plus [date - 1]; [month] may lie outside 0-11. *)
Definition MakeDay (year month date : Z) : Z :=
  let ym := year + month `div` 12 in
  let mn := month `mod` 12 in
  let y := if mn <=? 1 then ym - 1 else ym in
  let era := y `div` 400 in
  let yoe := y - era * 400 in
  let doy := (153 * (if 1 <? mn then mn - 2 else mn + 10) + 2) `div` 5 in
  let doe := yoe * 365 + yoe `div` 4 - yoe `div` 100 + doy in
  era * 146097 + doe - 719468 + date - 1.

Definition MakeDate (day time : Z) : Z := day * msPerDay + time.

Definition TimeClip (t : Z) : option Z :=
  if Z.abs t <=? 8640000000000000 then Some t else None.

Definition digit_char (n : Z) : ascii := ascii_of_N (Z.to_N (48 + n `mod` 10)).

(** [n] written with [width] decimal digits. *)
Fixpoint pad (width : nat) (n : Z) : string :=
  match width with
  | O => EmptyString
  | S w => (pad w (n `div` 10) ++ String (digit_char n) EmptyString)%string
  end.

(** [toISOString] of a time value: [YYYY-MM-DDTHH:mm:ss.sssZ], in UTC;
    a year outside 0-9999 is written with a sign and six digits. *)
Definition toISOString (t : Z) : string :=
  let y := YearFromTime t in
  let ms := TimeWithinDay t in
  let year :=
    if ((0 <=? y) && (y <=? 9999))%Z then pad 4 y
    else ((if (y <? 0)%Z then "-" else "+") ++ pad 6 (Z.abs y))%string in
  let hh := pad 2 (ms `div` 3600000) in
  let mm := pad 2 ((ms `div` 60000) `mod` 60) in
  let ss := pad 2 ((ms `div` 1000) `mod` 60) in
  let sss := pad 3 (ms `mod` 1000) in
  (year ++ "-" ++ pad 2 (MonthFromTime t + 1) ++ "-" ++ pad 2 (DateFromTime t)
   ++ "T" ++ hh ++ ":" ++ mm ++ ":" ++ ss ++ "." ++ sss ++ "Z")%string.

Section Local.
(** [LocalTZA(t, isUTC)]: the offset of the device's time zone, in
    milliseconds, at the UTC time [t] ([isUTC]) or at the local time
    [t]. *)
Variable LocalTZA : Z → bool → Z.

Definition LocalTime (t : Z) : Z := t + LocalTZA t true.
Definition UTC (t : Z) : Z := t - LocalTZA t false.

Definition getDay (d : option Z) : option Z := WeekDay ∘ LocalTime <$> d.
Definition getDate (d : option Z) : option Z := DateFromTime ∘ LocalTime <$> d.
Definition getMonth (d : option Z) : option Z := MonthFromTime ∘ LocalTime <$> d.
Definition getFullYear (d : option Z) : option Z := YearFromTime ∘ LocalTime <$> d.

(** [d.setDate(n)]: the new time value of [d]; [n] is [None] when it
    is [NaN]. *)
Definition setDate (d : option Z) (n : option Z) : option Z :=
  t ← d; n ← n;
  let l := LocalTime t in
  TimeClip (UTC (MakeDate (MakeDay (YearFromTime l) (MonthFromTime l) n)
                   (TimeWithinDay l))).

(** [new Date(year, month, date)]: local midnight of that day; a year
    of 0-99 stands for 1900-1999. *)
Definition ofFields (year month date : option Z) : option Z :=
  y ← year; m ← month; dt ← date;
  let yr := if (0 <=? y) && (y <=? 99) then 1900 + y else y in
  TimeClip (UTC (MakeDate (MakeDay yr m dt) 0)).
End Local.

End Date.

(** ** The list filter *)

Inductive DateFilter : Type := all | today | week | month | custom.

Definition isWithin (dateISO startISO endISO : string) : bool :=
  JS.ge_str dateISO startISO && JS.le_str dateISO endISO.

Section Filters.
(** The device's time zone. *)
Variable LocalTZA : Z → bool → Z.
(** The [RangeError] that [toISOString] throws on an invalid date. *)
Variable invalid_time : Error.

(** [iso(d)]: [d.toISOString().slice(0, 10)]. *)
Definition iso (d : option Z) : Result string :=
  match d with
  | Some t => Ok (JS.slice0 10 (Date.toISOString t))
  | None => Throw invalid_time
  end.

Definition getWeekRange (date : option Z) : Result (string * string) :=
  let d := date in
  let day := (λ n, (n + 6) `mod` 7) <$> Date.getDay LocalTZA d in
  let monday :=
    Date.setDate LocalTZA d (n ← Date.getDate LocalTZA d; k ← day; Some (n - k)) in
  let sunday :=
    Date.setDate LocalTZA monday ((λ n, n + 6) <$> Date.getDate LocalTZA monday) in
  match iso monday with
  | Throw e => Throw e
  | Ok startISO =>
      match iso sunday with
      | Throw e => Throw e
      | Ok endISO => Ok (startISO, endISO)
      end
  end.

(** The text the query is looked for in:
    [[d.carMake, d.carModel, d.reg, d.pickup, d.dropoff, d.notes].join(' ').toLowerCase()]. *)
Definition haystack (d : Delivery) : string :=
  JS.toLowerCase
    (JS.join " " [Some (carMake d); Some (carModel d); Some (reg d);
                  Some (pickup d); Some (dropoff d); notes d]).

(** [filtered()]; [now] is the device's clock, the time value of
    [new Date()]. *)
Definition filtered (now : Z) (query : string) (dateFilter : DateFilter)
    (customFrom customTo : string) (deliveries : list Delivery)
    : Result (list Delivery) :=
  let q := JS.toLowerCase (JS.trim query) in
  let dated : Result (list Delivery) :=
    match dateFilter with
    | all => Ok deliveries
    | today =>
        match iso (Some now) with
        | Throw e => Throw e
        | Ok todayISO => Ok (filter (λ d, dateISO d = todayISO) deliveries)
        end
    | week =>
        match getWeekRange (Some now) with
        | Throw e => Throw e
        | Ok (startISO, endISO) =>
            Ok (filter (λ d, isWithin (dateISO d) startISO endISO) deliveries)
        end
    | month =>
        let now' := Some now in
        let year := Date.getFullYear LocalTZA now' in
        let mon := Date.getMonth LocalTZA now' in
        match iso (Date.ofFields LocalTZA year mon (Some 1)) with
        | Throw e => Throw e
        | Ok startISO =>
            match iso (Date.ofFields LocalTZA year ((λ m, m + 1) <$> mon) (Some 0)) with
            | Throw e => Throw e
            | Ok endISO =>
                Ok (filter (λ d, isWithin (dateISO d) startISO endISO) deliveries)
            end
        end
    | custom =>
        if negb (String.eqb customFrom "") && negb (String.eqb customTo "")
        then Ok (filter (λ d, isWithin (dateISO d) customFrom customTo) deliveries)
        else if negb (String.eqb customFrom "")
        then Ok (filter (λ d, JS.ge_str (dateISO d) customFrom) deliveries)
        else if negb (String.eqb customTo "")
        then Ok (filter (λ d, JS.le_str (dateISO d) customTo) deliveries)
        else Ok deliveries
    end in
  match dated with
  | Throw e => Throw e
  | Ok l =>
      if String.eqb q "" then Ok l
      else Ok (filter (λ d, JS.includes (haystack d) q) l)
  end.

(** The calendar day of the device's local clock, as the specification
    words it: the date of the local time, written [YYYY-MM-DD]. *)
Definition localCalendarDay (now : Z) : string :=
  JS.slice0 10 (Date.toISOString (Date.LocalTime LocalTZA now)).

End Filters.

(** ** Drafts, totals and the handlers of the screen *)

(** [emptyDraft()]: the draft a new delivery starts from, dated
    [iso(new Date())]. *)
Definition emptyDraft (invalid_time : Error) (now : Z) : Result Draft :=
  match iso invalid_time (Some now) with
  | Throw e => Throw e
  | Ok date =>
      Ok {| id := None; dateISO := date; carMake := ""; carModel := ""; reg := "";
            pickup := ""; dropoff := "";
            distanceKm := JS.Num 0; ratePerKm := JS.Num 0; fixedFee := JS.Num 0;
            transportExpense := JS.Num 0; earnings := JS.Num 0;
            status := pending; notes := Some EmptyString |}
  end.

(** [list.reduce((acc, d) => acc + (Number(d.earnings) || 0), 0)], and the
    same for the transport expense. *)
Definition sumE (l : list Delivery) : JS.number :=
  foldl (λ acc d, (acc + JS.or0 (JS.Number (earnings d)))%float) 0%float l.
Definition sumX (l : list Delivery) : JS.number :=
  foldl (λ acc d, (acc + JS.or0 (JS.Number (transportExpense d)))%float) 0%float l.

Record Totals : Type := mkTotals {
  totalEarnings : JS.number;
  totalExpenses : JS.number;
  net : JS.number;
  totalJobs : nat;
  totalKm : JS.number;
  avgPerKm : JS.number;
}.

Definition computeTotals (l : list Delivery) : Totals :=
  let totalEarnings := sumE l in
  let totalExpenses := sumX l in
  let totalJobs := length l in
  let totalKm := foldl (λ acc d, (acc + JS.or0 (JS.Number (distanceKm d)))%float) 0%float l in
  let net := (totalEarnings + totalExpenses)%float in
  let avgPerKm := if PrimFloat.ltb 0 totalKm then (net / totalKm)%float else 0%float in
  mkTotals totalEarnings totalExpenses net totalJobs totalKm avgPerKm.

(** The four figures of [StatsBar], before they are written as currency;
    each [new Date()] of the component is the one instant [now]. *)
Record Stats : Type := mkStats {
  todayIncome : JS.number;
  weekIncome : JS.number;
  monthIncome : JS.number;
  exp : JS.number;
}.

Definition StatsBar (LocalTZA : Z → bool → Z) (invalid_time : Error) (now : Z)
    (deliveries : list Delivery) : Result Stats :=
  match iso invalid_time (Some now) with
  | Throw e => Throw e
  | Ok today' =>
  match getWeekRange LocalTZA invalid_time (Some now) with
  | Throw e => Throw e
  | Ok (startISO, endISO) =>
      let todayE := sumE (filter (λ d, dateISO d = today') deliveries) in
      let todayX := sumX (filter (λ d, dateISO d = today') deliveries) in
      let weekE := sumE (filter (λ d, isWithin (dateISO d) startISO endISO) deliveries) in
      let weekX := sumX (filter (λ d, isWithin (dateISO d) startISO endISO) deliveries) in
      let month' := Some now in
      let year := Date.getFullYear LocalTZA month' in
      let mon := Date.getMonth LocalTZA month' in
      match iso invalid_time (Date.ofFields LocalTZA year mon (Some 1)) with
      | Throw e => Throw e
      | Ok mStart =>
      match iso invalid_time
              (Date.ofFields LocalTZA year ((λ m, m + 1) <$> mon) (Some 0)) with
      | Throw e => Throw e
      | Ok mEnd =>
          let monthE := sumE (filter (λ d, isWithin (dateISO d) mStart mEnd) deliveries) in
          let monthX := sumX (filter (λ d, isWithin (dateISO d) mStart mEnd) deliveries) in
          Ok (mkStats (todayE + todayX)%float (weekE + weekX)%float
                (monthE + monthX)%float (sumX deliveries))
      end
      end
  end
  end.

(** The state of the screen that the handlers of the form and of the
    details sheet read and write, beside the world of the operations. *)
Module Home.

Record Screen : Type := mkScreen {
  world : World;
  formVisible : bool;
  draft : Draft;
  selected : option Delivery;
  jobDetailsVisible : bool;
}.

Definition setWorld (w : World) (s : Screen) : Screen :=
  mkScreen w (formVisible s) (draft s) (selected s) (jobDetailsVisible s).
Definition setFormVisible (b : bool) (s : Screen) : Screen :=
  mkScreen (world s) b (draft s) (selected s) (jobDetailsVisible s).
Definition setDraft (d : Draft) (s : Screen) : Screen :=
  mkScreen (world s) (formVisible s) d (selected s) (jobDetailsVisible s).
Definition setSelected (d : option Delivery) (s : Screen) : Screen :=
  mkScreen (world s) (formVisible s) (draft s) d (jobDetailsVisible s).
Definition setJobDetailsVisible (b : bool) (s : Screen) : Screen :=
  mkScreen (world s) (formVisible s) (draft s) (selected s) b.
Definition alert (title msg : string) (s : Screen) : Screen :=
  setWorld (Alert_alert title msg (world s)).2 s.

(** [{ ...d }] as a draft. *)
Definition asDraft (d : Delivery) : Draft :=
  {| id := Some (id d); dateISO := dateISO d; carMake := carMake d;
     carModel := carModel d; reg := reg d; pickup := pickup d; dropoff := dropoff d;
     distanceKm := distanceKm d; ratePerKm := ratePerKm d; fixedFee := fixedFee d;
     transportExpense := transportExpense d; earnings := earnings d;
     status := status d; notes := notes d |}.

(** [{ ...selected, status: s }]. *)
Definition withStatus (d : Delivery) (st : Status) : Draft :=
  {| id := Some (id d); dateISO := dateISO d; carMake := carMake d;
     carModel := carModel d; reg := reg d; pickup := pickup d; dropoff := dropoff d;
     distanceKm := distanceKm d; ratePerKm := ratePerKm d; fixedFee := fixedFee d;
     transportExpense := transportExpense d; earnings := earnings d;
     status := st; notes := notes d |}.

Definition openCreate (invalid_time : Error) (now : Z) (s : Screen) : Result () * Screen :=
  match emptyDraft invalid_time now with
  | Throw e => (Throw e, s)
  | Ok d => (Ok (), setFormVisible true (setDraft d s))
  end.
Definition openEdit (d : Delivery) (s : Screen) : Screen :=
  setFormVisible true (setDraft (asDraft d) s).
Definition openJobDetails (d : Delivery) (s : Screen) : Screen :=
  setJobDetailsVisible true (setSelected (Some d) s).

(** [deliveries.find((x) => x.id === id)]. *)
Definition findById (deliveries : list Delivery) (i : string) : option Delivery :=
  List.find (λ x, String.eqb (id x) i) deliveries.

(** [openDetailsById(id)]; [deliveries] is the list the function closed
    over. *)
Definition openDetailsById (deliveries : list Delivery) (i : string) (s : Screen) : Screen :=
  match findById deliveries i with
  | Some d => openJobDetails d s
  | None => s
  end.

Section Handlers.
Variable JSON_stringify : list Delivery → string.
Variable upsert_delivery : Payload.t → Reply DeliveryRow.t.
Variable null_access : Error.

(** The [onSubmit] of the form.  The handler and the functions it calls
    were made by one render, so all of them read the [deliveries] and the
    [draft] of that render; what is written to the developer console is
    left out. *)
Definition onSubmit (uuid : string) (s : Screen) : Screen :=
  let deliveries' := deliveries (world s) in
  if String.eqb (dateISO (draft s)) ""
  then alert "Missing date" "Please enter a date (YYYY-MM-DD)." s
  else if String.eqb (reg (draft s)) ""
  then alert "Missing reg" "Please enter the car registration." s
  else
    match upsertDelivery JSON_stringify upsert_delivery null_access uuid (draft s)
            (world s) with
    | (Ok i, w') => openDetailsById deliveries' i (setFormVisible false (setWorld w' s))
    | (Throw e, w') =>
        alert "Add delivery failed" (message_or e "Unknown error") (setWorld w' s)
    end.

(** The [onSetStatus] of the details sheet. *)
Definition onSetStatus (uuid : string) (st : Status) (s : Screen) : Result () * Screen :=
  match selected s with
  | None => (Ok (), s)
  | Some sel =>
      let deliveries' := deliveries (world s) in
      match upsertDelivery JSON_stringify upsert_delivery null_access uuid
              (withStatus sel st) (world s) with
      | (Throw e, w') => (Throw e, setWorld w' s)
      | (Ok _, w') =>
          match findById deliveries' (id sel) with
          | Some d => (Ok (), setSelected (Some d) (setWorld w' s))
          | None => (Ok (), setWorld w' s)
          end
      end
  end.
End Handlers.

End Home.

(** ** Vocabulary of the properties *)

(** Descending by date: [a] may stand before [b]. *)
Definition dateDesc (a b : Delivery) : Prop :=
  JS.ge_str (dateISO a) (dateISO b) = true.

(** The row a call of the remote store succeeded with: the promise
    resolved with data and without an error.  Every other reply is a
    failure. *)
Definition succeeded {A} (r : Reply A) : option A :=
  match r with
  | Resolved (Some a) None => Some a
  | _ => None
  end.

(** The text the cache holds. *)
Definition cached (w : World) : option string := storage w !! STORAGE_KEY.

(** What an operation returns or throws from a world, and the world it
    leaves. *)
Definition result {A} (c : M A) (w : World) : Result A := (c w).1.
Definition after {A} (c : M A) (w : World) : World := (c w).2.

(** [Number(v) || 0]: the operand of the earnings formula that [v] gives. *)
Definition coerced (v : JS.value) : JS.number := JS.or0 (JS.Number v).

(** A number is negative: [x < 0]. *)
Definition negative (x : JS.number) : bool := PrimFloat.ltb x 0%float.
Arguments negative x%_float.

(** The binary64 values that are not below zero: [NaN], the zeros, and
    the numbers and the infinity of positive sign. *)
Definition not_below_zero (x : spec_float) : Prop :=
  match x with
  | S754_nan | S754_zero _ => True
  | S754_infinity s | S754_finite s _ _ => s = false
  end.

(** Records and worlds to run the operations on. *)
Definition job (i date : string) (km rate fee pay : JS.number) : Delivery :=
  {| id := i; dateISO := date; carMake := "Ford"; carModel := "Transit";
     reg := "AB12 CDE"; pickup := "Leeds"; dropoff := "York";
     distanceKm := JS.Num km; ratePerKm := JS.Num rate; fixedFee := JS.Num fee;
     transportExpense := JS.Num 0; earnings := JS.Num pay;
     status := pending; notes := None |}.
Arguments job i%_string date%_string (km rate fee pay)%_float.

Definition draft (i : option string) (date : string) (km rate fee pay : JS.number) : Draft :=
  {| id := i; dateISO := date; carMake := "Ford"; carModel := "Transit";
     reg := "AB12 CDE"; pickup := "Leeds"; dropoff := "York";
     distanceKm := JS.Num km; ratePerKm := JS.Num rate; fixedFee := JS.Num fee;
     transportExpense := JS.Num 0; earnings := JS.Num pay;
     status := pending; notes := None |}.
Arguments draft i date%_string (km rate fee pay)%_float.

Definition two_jobs : list Delivery :=
  [job "a" "2025-08-10" 10 0.75 5 12.5; job "b" "2025-08-09" 4 1 0 4].

(** A device two hours east of Greenwich, half an hour after its midnight:
    its clock reads 2025-08-11 00:30, and the time is 2025-08-10T22:30:00Z. *)
Definition east_two_hours : Z → bool → Z := λ _ _, 7200000.
Definition half_past_midnight : Z := 1754865000000.

(** A device one hour east of Greenwich at noon of 2025-08-15
    (2025-08-15T11:00:00Z). *)
Definition east_one_hour : Z → bool → Z := λ _ _, 3600000.
Definition mid_august_noon : Z := 1755255600000.

Definition offline : Error := mkError (Some "Network request failed").

(** A remote store that answers an upsert with the row it was sent. *)
Definition echo (p : Payload.t) : DeliveryRow.t :=
  {| DeliveryRow.id := default EmptyString (Payload.id p);
     DeliveryRow.user_id := Payload.user_id p;
     DeliveryRow.date_iso := Payload.date_iso p;
     DeliveryRow.car_make := Some (Payload.car_make p);
     DeliveryRow.car_model := Some (Payload.car_model p);
     DeliveryRow.reg := Some (Payload.reg p);
     DeliveryRow.pickup := Some (Payload.pickup p);
     DeliveryRow.dropoff := Some (Payload.dropoff p);
     DeliveryRow.distance_km := JS.Num (Payload.distance_km p);
     DeliveryRow.rate_per_km := JS.Num (Payload.rate_per_km p);
     DeliveryRow.fixed_fee := JS.Num (Payload.fixed_fee p);
     DeliveryRow.transport_expense := JS.Num (Payload.transport_expense p);
     DeliveryRow.earnings := Payload.earnings p;
     DeliveryRow.status := Some (Payload.status p);
     DeliveryRow.notes := Some (Payload.notes p) |}.

Definition sample_row : DeliveryRow.t :=
  echo (draftToRow (draft None "2025-08-12" 1 2 3 0) "u1" (JS.Num 5) (Some "c"%string)).

(** A row of a later day, and a row under an identifier that [two_jobs]
    has. *)
Definition later_row : DeliveryRow.t :=
  echo (draftToRow (draft None "2025-08-14" 1 2 3 0) "u1" (JS.Num 5) (Some "d"%string)).

(** A stand-in for [JSON.stringify] to run the operations with. *)
Definition ids_text (l : list Delivery) : string := String.concat "," (id <$> l).

Definition signed_in : World :=
  mkWorld two_jobs (Some (mkSession (mkUser "u1"))) ∅ [].
Definition signed_out : World := mkWorld two_jobs None ∅ [].

(** The cache holds the text of the records in memory. *)
Definition consistent (JSON_stringify : list Delivery → string) (w : World) : Prop :=
  cached w = Some (JSON_stringify (deliveries w)).

(** The world a newly mounted screen starts in: the storage is kept, the
    records in memory are [useState([])]. *)
Definition restart (w : World) : World := mkWorld [] (session w) (storage w) [].

(** [a], [b], [c] in turn, each with its date: three jobs to sort. *)
Definition three_jobs : list Delivery :=
  [job "a" "2025-08-09" 1 1 0 1; job "b" "2025-08-10" 1 1 0 1;
   job "c" "2025-08-09" 1 1 0 1].

(** A [JSON.parse] that reads back the text [ids_text] gives for
    [two_jobs] and for no other list. *)
Definition parse_two_jobs (text : string) : Result Parsed :=
  if String.eqb text (ids_text two_jobs) then Ok (ParsedArray two_jobs)
  else Throw (mkError (Some "Unexpected token"%string)).

(** A world whose cache holds its records. *)
Definition saved_world : World :=
  mkWorld two_jobs None {[ STORAGE_KEY := ids_text two_jobs ]} [].

(** A screen with the form open on a draft, signed out, and a screen with
    the details sheet open on a record. *)
Definition form_screen (d : Draft) : Home.Screen :=
  Home.mkScreen signed_out true d None false.
Definition details_screen (d : Delivery) : Home.Screen :=
  Home.mkScreen signed_out false (draft None "2025-08-10" 0 0 0 0) (Some d) true.

(** [iso] of a valid time value. *)
Definition iso_day (t : Z) : string := JS.slice0 10 (Date.toISOString t).

(** * Properties *)

(** ** The order of strings *)

Module StringOrder.

Lemma ascii_compare_refl (c : ascii) : Ascii.compare c c = Eq.
Proof. unfold Ascii.compare. apply N.compare_refl. Qed.

Lemma compare_refl (s : string) : String.compare s s = Eq.
Proof. induction s as [|c s IH]; simpl; [done|]. by rewrite ascii_compare_refl. Qed.

Lemma ascii_compare_lt_trans (a b c : ascii) :
  Ascii.compare a b = Lt → Ascii.compare b c = Lt → Ascii.compare a c = Lt.
Proof. unfold Ascii.compare. rewrite !N.compare_lt_iff. lia. Qed.

Lemma compare_lt_trans (s1 s2 s3 : string) :
  String.compare s1 s2 = Lt → String.compare s2 s3 = Lt → String.compare s1 s3 = Lt.
Proof.
  revert s2 s3. induction s1 as [|a s1 IH]; intros [|b s2] [|c s3]; simpl; try done.
  destruct (Ascii.compare a b) eqn:Hab; try done;
    destruct (Ascii.compare b c) eqn:Hbc; try done; intros H1 H2.
  - apply Ascii.compare_eq_iff in Hab, Hbc. subst.
    rewrite ascii_compare_refl. eauto.
  - apply Ascii.compare_eq_iff in Hab. subst. by rewrite Hbc.
  - apply Ascii.compare_eq_iff in Hbc. subst. by rewrite Hab.
  - by rewrite (ascii_compare_lt_trans a b c).
Qed.

Lemma ltb_irrefl (s : string) : String.ltb s s = false.
Proof. unfold String.ltb. by rewrite compare_refl. Qed.

Lemma ltb_trans (s1 s2 s3 : string) :
  String.ltb s1 s2 = true → String.ltb s2 s3 = true → String.ltb s1 s3 = true.
Proof.
  unfold String.ltb. intros H1 H2.
  rewrite (compare_lt_trans s1 s2 s3); [done| |].
  - by destruct (String.compare s1 s2).
  - by destruct (String.compare s2 s3).
Qed.

Lemma ltb_asym (s1 s2 : string) : String.ltb s1 s2 = true → String.ltb s2 s1 = false.
Proof.
  unfold String.ltb. rewrite (String.compare_antisym s1 s2).
  by destruct (String.compare s2 s1).
Qed.

Lemma ltb_connex (s1 s2 : string) :
  String.ltb s1 s2 = false → String.ltb s2 s1 = false → s1 = s2.
Proof.
  unfold String.ltb. rewrite (String.compare_antisym s1 s2).
  destruct (String.compare s2 s1) eqn:H; try done.
  intros _ _. symmetry. by apply String.compare_eq_iff.
Qed.

(** [a >= b] is a total preorder on strings. *)
Lemma ge_str_refl (a : string) : JS.ge_str a a = true.
Proof. unfold JS.ge_str. by rewrite ltb_irrefl. Qed.

Lemma ge_str_trans (a b c : string) :
  JS.ge_str a b = true → JS.ge_str b c = true → JS.ge_str a c = true.
Proof.
  unfold JS.ge_str. rewrite !negb_true_iff. intros Hab Hbc.
  destruct (String.ltb a c) eqn:Hac; [|done].
  destruct (String.ltb c b) eqn:Hcb.
  - by rewrite (ltb_trans a c b) in Hab.
  - rewrite (ltb_connex b c) in Hab by done. congruence.
Qed.

Lemma ge_str_total (a b : string) : JS.ge_str a b = true ∨ JS.ge_str b a = true.
Proof.
  unfold JS.ge_str. destruct (String.ltb a b) eqn:H; [|by left].
  right. by rewrite (ltb_asym a b).
Qed.

End StringOrder.

(** ** [Array_sort] *)

Section Array_sort_facts.
Context {A : Type} (cmp : A → A → Z).

Lemma sort_insert_Permutation (x : A) (l : list A) : sort_insert cmp x l ≡ₚ x :: l.
Proof.
  induction l as [|y l IH]; simpl; [done|].
  destruct (cmp x y <=? 0); [done|]. rewrite IH. apply Permutation_swap.
Qed.

Lemma Array_sort_Permutation (l : list A) : Array_sort cmp l ≡ₚ l.
Proof.
  induction l as [|x l IH]; simpl; [done|].
  by rewrite sort_insert_Permutation, IH.
Qed.

Lemma elem_of_Array_sort (x : A) (l : list A) : x ∈ Array_sort cmp l ↔ x ∈ l.
Proof. by rewrite Array_sort_Permutation. Qed.

(** An element that no element of the sorted tail goes before stays first. *)
Lemma sort_insert_head (x : A) (l : list A) :
  Forall (before cmp x) l → sort_insert cmp x l = x :: l.
Proof.
  destruct 1 as [|y l Hy _]; simpl; [done|].
  unfold before in Hy. by destruct (Z.leb_spec (cmp x y) 0); [|lia].
Qed.


Section Sorted.
Hypothesis before_total : ∀ x y, before cmp x y ∨ before cmp y x.
Hypothesis before_trans : ∀ x y z, before cmp x y → before cmp y z → before cmp x z.

Lemma sort_insert_Sorted (x : A) (l : list A) :
  StronglySorted (before cmp) l → StronglySorted (before cmp) (sort_insert cmp x l).
Proof.
  induction 1 as [|y l Hl IH Hy]; simpl.
  - repeat constructor.
  - destruct (cmp x y <=? 0) eqn:Hxy.
    + apply Z.leb_le in Hxy. constructor; [by constructor|].
      constructor; [done|].
      eapply Forall_impl; [exact Hy|]. intros z Hz. by eapply before_trans.
    + apply Z.leb_gt in Hxy. constructor; [done|].
      rewrite sort_insert_Permutation. constructor; [|done].
      destruct (before_total x y) as [H|H]; [|done]. unfold before in H. lia.
Qed.

Lemma Array_sort_Sorted (l : list A) : StronglySorted (before cmp) (Array_sort cmp l).
Proof.
  induction l as [|x l IH]; simpl; [constructor|].
  by apply sort_insert_Sorted.
Qed.
End Sorted.
End Array_sort_facts.

(** ** [sortByDateDesc] and the merge rule *)

Lemma before_byDateDesc (a b : Delivery) : before byDateDesc a b ↔ dateDesc a b.
Proof.
  unfold before, byDateDesc, dateDesc, JS.ge_str, JS.lt_str, JS.gt_str.
  destruct (String.ltb (dateISO a) (dateISO b)); simpl.
  - split; [lia|done].
  - split; [done|]. intros _. destruct (String.ltb (dateISO b) (dateISO a)); lia.
Qed.

Lemma dateDesc_total (a b : Delivery) : dateDesc a b ∨ dateDesc b a.
Proof. apply StringOrder.ge_str_total. Qed.

Lemma dateDesc_trans (a b c : Delivery) : dateDesc a b → dateDesc b c → dateDesc a c.
Proof. apply StringOrder.ge_str_trans. Qed.

Lemma sortByDateDesc_Permutation (l : list Delivery) : sortByDateDesc l ≡ₚ l.
Proof. apply Array_sort_Permutation. Qed.

Lemma sortByDateDesc_Sorted (l : list Delivery) : StronglySorted dateDesc (sortByDateDesc l).
Proof.
  assert (StronglySorted (before byDateDesc) (sortByDateDesc l)) as H.
  { apply Array_sort_Sorted.
    - intros x y. rewrite !before_byDateDesc. apply dateDesc_total.
    - intros x y z. rewrite !before_byDateDesc. apply dateDesc_trans. }
  induction H as [|x l' _ IH Hx]; constructor; [done|].
  eapply Forall_impl; [exact Hx|]. intros y. by rewrite before_byDateDesc.
Qed.


Lemma merge_Permutation (rec : Delivery) (ds : list Delivery) :
  merge rec ds ≡ₚ rec :: filter (λ d, id d ≠ id rec) ds.
Proof. apply sortByDateDesc_Permutation. Qed.

Lemma elem_of_merge (rec : Delivery) (ds : list Delivery) (d : Delivery) :
  d ∈ merge rec ds ↔ d = rec ∨ (d ∈ ds ∧ id d ≠ id rec).
Proof.
  rewrite merge_Permutation, elem_of_cons, list_elem_of_filter.
  split; (intros [->|[? ?]]; [by left|by right]).
Qed.

Lemma NoDup_fmap_filter {A B} (f : A → B) (P : A → Prop) `{∀ x, Decision (P x)}
    (l : list A) :
  NoDup (f <$> l) → NoDup (f <$> filter P l).
Proof.
  induction l as [|x l IH]; [done|].
  rewrite fmap_cons, NoDup_cons. intros [Hx Hl].
  rewrite filter_cons. destruct (decide (P x)); [|by apply IH].
  rewrite fmap_cons, NoDup_cons. split; [|by apply IH].
  intros (y & Hfy & Hy)%list_elem_of_fmap. apply Hx, list_elem_of_fmap.
  exists y. split; [done|]. by apply list_elem_of_filter in Hy as [_ ?].
Qed.

Lemma merge_NoDup (rec : Delivery) (ds : list Delivery) :
  NoDup (id <$> ds) → NoDup (id <$> merge rec ds).
Proof.
  intros H. rewrite merge_Permutation, fmap_cons. apply NoDup_cons. split.
  - rewrite list_elem_of_fmap. intros (d & Hid & Hd).
    apply list_elem_of_filter in Hd as [Hne _]. congruence.
  - by apply NoDup_fmap_filter.
Qed.

(** No record is filtered out for an identifier that none has. *)
Lemma filter_fresh (i : string) (ds : list Delivery) :
  i ∉ id <$> ds → filter (λ d, id d ≠ i) ds = ds.
Proof.
  induction ds as [|d ds IH]; [done|].
  rewrite fmap_cons, not_elem_of_cons. intros [Hd Hds].
  rewrite filter_cons. destruct (decide (id d ≠ i)) as [_|Hn]; [|by destruct Hn].
  f_equal. by apply IH.
Qed.


(** C1: for a record list with pairwise distinct identifiers and a new
    record, the merge rule (the new record put first, every record with its
    identifier filtered out of the rest, the whole sorted) gives a list with
    at most one record per identifier, sorted descending by date, that
    contains the new record. *)
Theorem merge_rule_C1 (ds : list Delivery) (rec : Delivery) :
  NoDup (id <$> ds) →
  NoDup (id <$> merge rec ds)
  ∧ StronglySorted dateDesc (merge rec ds)
  ∧ rec ∈ merge rec ds.
Proof.
  intros Hds. split; [by apply merge_NoDup|]. split.
  - apply sortByDateDesc_Sorted.
  - apply elem_of_merge. by left.
Qed.

Lemma merge_rule_C1_witness :
  NoDup (id <$> two_jobs)
  ∧ NoDup (id <$> merge (job "b" "2025-08-11" 3 1 0 3) two_jobs)
  ∧ StronglySorted dateDesc (merge (job "b" "2025-08-11" 3 1 0 3) two_jobs)
  ∧ job "b" "2025-08-11" 3 1 0 3 ∈ merge (job "b" "2025-08-11" 3 1 0 3) two_jobs.
Proof.
  assert (NoDup (id <$> two_jobs)) as H by (by apply (bool_decide_unpack _)).
  split; [exact H|]. exact (merge_rule_C1 two_jobs _ H).
Defined.

(** ** The reconciliation operations *)

Ltac run :=
  unfold result, after, cached, syncFromRemote, upsertDelivery, deleteDelivery,
    loadCache, saveCache, fetchDeliveries, try_catch, bind, ret, throw,
    getDeliveries, getSession, setDeliveries, AsyncStorage_getItem,
    AsyncStorage_setItem, Alert_alert, data_of;
  simpl.

Lemma default_default {A} (x : A) (o : option A) : default (default x o) o = default x o.
Proof. by destruct o. Qed.

Lemma succeeded_None_data_of {A} (r : Reply A) (w : World) :
  succeeded r = None →
  (∃ e, data_of r w = (Throw e, w)) ∨ data_of r w = (Ok None, w).
Proof.
  destruct r as [e|[a|] [e|]]; simpl; intros H; try discriminate;
    (by left; eexists) || by right.
Qed.

Lemma succeeded_Some_data_of {A} (r : Reply A) (a : A) (w : World) :
  succeeded r = Some a → data_of r w = (Ok (Some a), w).
Proof. destruct r as [e|[a'|] [e|]]; simpl; intros H; by simplify_eq. Qed.

Section Reconciliation.
Variable JSON_parse : string → Result Parsed.
Variable JSON_stringify : list Delivery → string.
Variable select_deliveries : string → Reply (list DeliveryRow.t).
Variable upsert_delivery : Payload.t → Reply DeliveryRow.t.
Variable delete_delivery : string → string → Reply unit.
Variable null_access : Error.

Local Abbreviation sync := (syncFromRemote JSON_stringify select_deliveries null_access).
Local Abbreviation upsert := (upsertDelivery JSON_stringify upsert_delivery null_access).
Local Abbreviation delete := (deleteDelivery JSON_stringify delete_delivery).
Local Abbreviation load := (loadCache JSON_parse).

(** A failed fetch leaves the records and the storage as they were,
    whether the failure is announced or not. *)
Lemma syncFromRemote_failure (alertOnError : bool) (w : World) (sess : Session) :
  session w = Some sess →
  succeeded (select_deliveries (user_id (user sess))) = None →
  result (sync alertOnError) w = Ok ()
  ∧ deliveries (after (sync alertOnError) w) = deliveries w
  ∧ storage (after (sync alertOnError) w) = storage w.
Proof.
  intros Hs Hf. run. rewrite Hs.
  destruct (succeeded_None_data_of _ w Hf) as [[e He]|He];
    unfold data_of in He; rewrite He; simpl; by destruct alertOnError.
Qed.

Lemma syncFromRemote_success (alertOnError : bool) (w : World) (sess : Session)
    (rows : list DeliveryRow.t) :
  session w = Some sess →
  succeeded (select_deliveries (user_id (user sess))) = Some rows →
  let next := sortByDateDesc (rowToDelivery <$> rows) in
  result (sync alertOnError) w = Ok ()
  ∧ deliveries (after (sync alertOnError) w) = next
  ∧ storage (after (sync alertOnError) w)
    = <[STORAGE_KEY := JSON_stringify next]> (storage w).
Proof.
  intros Hs Hf. run. rewrite Hs.
  pose proof (succeeded_Some_data_of _ _ w Hf) as He.
  unfold data_of in He. by rewrite He.
Qed.

Lemma syncFromRemote_signed_out (alertOnError : bool) (w : World) :
  session w = None → sync alertOnError w = (Ok (), w).
Proof. intros Hs. run. by rewrite Hs. Qed.
(** C3: when the remote fetch of [syncFromRemote(true)] fails, the records
    in memory and the cache are what they were before the call; when the
    fetch of a signed-in user succeeds, the records in memory are the
    remote records sorted: they are [sortByDateDesc] of the rows mapped by
    [rowToDelivery], hence the same records, each as often, in an order
    descending by date; and the cache is overwritten with the text of the
    records in memory. *)
Theorem syncFromRemote_C3 (w : World) (sess : Session) :
  session w = Some sess →
  (succeeded (select_deliveries (user_id (user sess))) = None →
   deliveries (after (sync true) w) = deliveries w
   ∧ storage (after (sync true) w) = storage w)
  ∧ (∀ rows, succeeded (select_deliveries (user_id (user sess))) = Some rows →
     deliveries (after (sync true) w) = sortByDateDesc (rowToDelivery <$> rows)
     ∧ deliveries (after (sync true) w) ≡ₚ rowToDelivery <$> rows
     ∧ StronglySorted dateDesc (deliveries (after (sync true) w))
     ∧ cached (after (sync true) w)
       = Some (JSON_stringify (deliveries (after (sync true) w)))).
Proof.
  intros Hs. split.
  - intros Hf. by destruct (syncFromRemote_failure true w sess Hs Hf) as (_ & ? & ?).
  - intros rows Hr.
    destruct (syncFromRemote_success true w sess rows Hs Hr) as (_ & Hd & Hc).
    rewrite Hd. split; [done|].
    split; [apply sortByDateDesc_Permutation|].
    split; [apply sortByDateDesc_Sorted|].
    unfold cached. rewrite Hc. apply lookup_insert_eq.
Qed.

(** ** [upsertDelivery] *)

(** The record [upsertDelivery] puts in the list and the identifier it
    returns, on each of its three paths. *)
Lemma upsertDelivery_signed_out (uuid : string) (input : Draft) (w : World) :
  session w = None →
  let id' := default uuid (id input) in
  let local := localRecord input id'
                 (computeEarnings (distanceKm input) (ratePerKm input)
                    (fixedFee input) (earnings input)) in
  upsert uuid input w
  = (Ok id', mkWorld (merge local (deliveries w)) None
               (<[STORAGE_KEY := JSON_stringify (merge local (deliveries w))]> (storage w))
               (alerts w)).
Proof. intros Hs. run. rewrite Hs. simpl. by rewrite Hs. Qed.

Lemma upsertDelivery_remote_success (uuid : string) (input : Draft) (w : World)
    (sess : Session) (row : DeliveryRow.t) :
  session w = Some sess →
  let id' := default uuid (id input) in
  let computed := computeEarnings (distanceKm input) (ratePerKm input)
                    (fixedFee input) (earnings input) in
  succeeded (upsert_delivery (draftToRow input (user_id (user sess)) computed (Some id')))
  = Some row →
  let saved := rowToDelivery row in
  upsert uuid input w
  = (Ok (id saved), mkWorld (merge saved (deliveries w)) (Some sess)
                      (<[STORAGE_KEY := JSON_stringify (merge saved (deliveries w))]> (storage w))
                      (alerts w)).
Proof.
  intros Hs id' computed Hr. run. rewrite Hs, default_default.
  pose proof (succeeded_Some_data_of _ _ w Hr) as He.
  unfold data_of in He. fold id' computed. rewrite He. simpl. by rewrite Hs.
Qed.

Lemma upsertDelivery_remote_failure (uuid : string) (input : Draft) (w : World)
    (sess : Session) :
  session w = Some sess →
  let id' := default uuid (id input) in
  let computed := computeEarnings (distanceKm input) (ratePerKm input)
                    (fixedFee input) (earnings input) in
  succeeded (upsert_delivery (draftToRow input (user_id (user sess)) computed (Some id')))
  = None →
  let local := localRecord input id' computed in
  ∃ e, upsert uuid input w
  = (Ok id', mkWorld (merge local (deliveries w)) (Some sess)
               (<[STORAGE_KEY := JSON_stringify (merge local (deliveries w))]> (storage w))
               (("Save failed", message_or e "Unable to save to Supabase") :: alerts w)).
Proof.
  intros Hs id' computed Hr. run. rewrite Hs, !default_default. fold id' computed.
  destruct (succeeded_None_data_of _ w Hr) as [[e He]|He];
    unfold data_of in He; rewrite He; simpl; rewrite Hs; by eexists.
Qed.

(** On every path the list becomes the merge of one record, whose
    identifier is returned, and the cache is rewritten with the list. *)
Lemma upsertDelivery_merge (uuid : string) (input : Draft) (w : World) :
  ∃ rec : Delivery,
    result (upsert uuid input) w = Ok (id rec)
    ∧ deliveries (after (upsert uuid input) w) = merge rec (deliveries w)
    ∧ cached (after (upsert uuid input) w)
      = Some (JSON_stringify (merge rec (deliveries w))).
Proof.
  set (computed := computeEarnings (distanceKm input) (ratePerKm input)
                     (fixedFee input) (earnings input)).
  destruct (session w) as [sess|] eqn:Hs.
  - destruct (succeeded (upsert_delivery
                (draftToRow input (user_id (user sess)) computed
                   (Some (default uuid (id input)))))) as [row|] eqn:Hr.
    + exists (rowToDelivery row). unfold result, after, cached.
      rewrite (upsertDelivery_remote_success uuid input w sess row Hs Hr). simpl.
      by rewrite lookup_insert_eq.
    + destruct (upsertDelivery_remote_failure uuid input w sess Hs Hr) as [e He].
      exists (localRecord input (default uuid (id input)) computed).
      unfold result, after, cached. rewrite He. simpl. by rewrite lookup_insert_eq.
  - exists (localRecord input (default uuid (id input)) computed).
    unfold result, after, cached. rewrite (upsertDelivery_signed_out uuid input w Hs).
    simpl. by rewrite lookup_insert_eq.
Qed.

(** C4: when the remote write of a signed-in upsert fails, the draft, with
    the earnings computed on the client and under its identifier (the
    draft's, or the one just generated), is merged into the records in
    memory, the records are sorted again and written to the cache, and the
    identifier is returned: the edit is in the list. *)
Theorem upsert_remote_failure_C4 (uuid : string) (input : Draft) (w : World)
    (sess : Session) :
  session w = Some sess →
  let localId := default uuid (id input) in
  let computed := computeEarnings (distanceKm input) (ratePerKm input)
                    (fixedFee input) (earnings input) in
  let local := localRecord input localId computed in
  succeeded (upsert_delivery
               (draftToRow input (user_id (user sess)) computed (Some localId))) = None →
  result (upsert uuid input) w = Ok localId
  ∧ deliveries (after (upsert uuid input) w) = merge local (deliveries w)
  ∧ local ∈ deliveries (after (upsert uuid input) w)
  ∧ StronglySorted dateDesc (deliveries (after (upsert uuid input) w))
  ∧ cached (after (upsert uuid input) w)
    = Some (JSON_stringify (deliveries (after (upsert uuid input) w))).
Proof.
  intros Hs localId computed local Hr.
  destruct (upsertDelivery_remote_failure uuid input w sess Hs Hr) as [e He].
  unfold result, after, cached. rewrite He. simpl. fold localId computed local.
  split; [done|]. split; [done|]. split; [apply elem_of_merge; by left|].
  split; [apply sortByDateDesc_Sorted|]. by rewrite lookup_insert_eq.
Qed.

(** C10: after [upsertDelivery], on each of its paths, the records in
    memory are the upserted record together with the earlier records of
    another identifier, each as it was, and nothing else. *)
Theorem upsert_frame_C10 (uuid : string) (input : Draft) (w : World) :
  ∃ rec : Delivery,
    result (upsert uuid input) w = Ok (id rec)
    ∧ deliveries (after (upsert uuid input) w)
      ≡ₚ rec :: filter (λ d, id d ≠ id rec) (deliveries w)
    ∧ ∀ d, d ∈ deliveries (after (upsert uuid input) w)
           ↔ d = rec ∨ (d ∈ deliveries w ∧ id d ≠ id rec).
Proof.
  destruct (upsertDelivery_merge uuid input w) as (rec & Hr & Hd & _).
  exists rec. rewrite Hd. split; [done|]. split.
  - apply merge_Permutation.
  - intros d. apply elem_of_merge.
Qed.


(** ** [deleteDelivery] and [loadCache] *)

(** C5: [deleteDelivery(id)] leaves no record of that identifier in
    memory and writes the list to the cache, whatever the remote delete
    answers and whether or not a user is signed in (in particular for a
    list that holds a record of that identifier). *)
Theorem deleteDelivery_C5 (id' : string) (w : World) :
  result (delete id') w = Ok ()
  ∧ deliveries (after (delete id') w) = filter (λ d, id d ≠ id') (deliveries w)
  ∧ (∀ d, d ∈ deliveries (after (delete id') w) → id d ≠ id')
  ∧ cached (after (delete id') w)
    = Some (JSON_stringify (deliveries (after (delete id') w))).
Proof.
  assert (∃ notices,
            delete id' w
            = (Ok (), mkWorld (filter (λ d, id d ≠ id') (deliveries w)) (session w)
                        (<[STORAGE_KEY := JSON_stringify
                                            (filter (λ d, id d ≠ id') (deliveries w))]>
                           (storage w))
                        notices)) as [notices He].
  { run. destruct (session w) as [sess|] eqn:Hs; simpl; [|rewrite Hs; by eexists].
    destruct (delete_delivery id' (user_id (user sess))) as [e|data [e|]];
      simpl; rewrite Hs; by eexists. }
  unfold result, after, cached. rewrite He. simpl.
  split; [done|]. split; [done|]. split.
  - intros d Hd. by apply list_elem_of_filter in Hd as [? _].
  - by rewrite lookup_insert_eq.
Qed.

(** C6: when the key is absent from the storage, or the text stored under
    it is not JSON, [loadCache] returns the empty list; it does not throw,
    and it changes nothing. *)
Theorem loadCache_C6 (w : World) :
  (cached w = None ∨ ∃ text e, cached w = Some text ∧ JSON_parse text = Throw e) →
  load w = (Ok [], w).
Proof.
  unfold cached. run. intros [->|(text & e & -> & He)]; [done|].
  destruct (String.eqb text ""); [done|]. by rewrite He.
Qed.

(** The other texts: the empty text, and JSON that is not an array, are an
    empty cache as well; an array is returned as it is. *)
Lemma loadCache_array (w : World) (text : string) (l : list Delivery) :
  cached w = Some text → text ≠ EmptyString → JSON_parse text = Ok (ParsedArray l) →
  load w = (Ok l, w).
Proof.
  unfold cached. run. intros -> Hne He.
  destruct (String.eqb_spec text ""); [done|]. by rewrite He.
Qed.

Lemma loadCache_not_array (w : World) (text : string) :
  cached w = Some text → text = EmptyString ∨ JSON_parse text = Ok ParsedOther →
  load w = (Ok [], w).
Proof.
  unfold cached. run. intros -> [->|He]; [done|].
  destruct (String.eqb text ""); [done|]. by rewrite He.
Qed.

(** What is written to the cache is what is read back, for a [JSON.parse]
    that inverts [JSON.stringify] on lists of records. *)
Lemma saveCache_loadCache (l : list Delivery) (w : World) :
  JSON_parse (JSON_stringify l) = Ok (ParsedArray l) →
  JSON_stringify l ≠ EmptyString →
  result (saveCache JSON_stringify l;; load) w = Ok l.
Proof.
  intros Hp Hne. run. rewrite lookup_insert_eq.
  destruct (String.eqb_spec (JSON_stringify l) ""); [done|]. by rewrite Hp.
Qed.

End Reconciliation.

(** ** The operations run on sample worlds *)

Lemma syncFromRemote_C3_witness :
  (deliveries (after (syncFromRemote ids_text (λ _, Rejected offline) offline true)
                 signed_in) = two_jobs
   ∧ storage (after (syncFromRemote ids_text (λ _, Rejected offline) offline true)
                signed_in) = ∅)
  ∧ (deliveries
       (after (syncFromRemote ids_text
                 (λ _, Resolved (Some [sample_row; later_row]) None)
                 offline true) signed_in)
     = [rowToDelivery later_row; rowToDelivery sample_row]
     ∧ cached
         (after (syncFromRemote ids_text
                   (λ _, Resolved (Some [sample_row; later_row]) None)
                   offline true) signed_in)
       = Some "d,c"%string).
Proof.
  split.
  - exact (proj1 (syncFromRemote_C3 ids_text (λ _, Rejected offline) offline
                    signed_in _ eq_refl) eq_refl).
  - pose proof (proj2 (syncFromRemote_C3 ids_text
                         (λ _, Resolved (Some [sample_row; later_row]) None)
                         offline signed_in _ eq_refl)
                  _ eq_refl) as (H1 & _ & _ & H4).
    split; [exact H1|exact H4].
Defined.

Lemma upsert_remote_failure_C4_witness :
  result (upsertDelivery ids_text (λ _, Rejected offline) offline "c"
            (draft None "2025-08-12" 10 0.75 5 0)) signed_in
  = Ok "c"%string
  ∧ deliveries (after (upsertDelivery ids_text (λ _, Rejected offline) offline "c"
                         (draft None "2025-08-12" 10 0.75 5 0)) signed_in)
    = job "c" "2025-08-12" 10 0.75 5 12.5 :: two_jobs.
Proof.
  pose proof (upsert_remote_failure_C4 ids_text (λ _, Rejected offline) offline "c"
                (draft None "2025-08-12" 10 0.75 5 0) signed_in _ eq_refl eq_refl)
    as (H1 & H2 & _).
  split; [exact H1|exact H2].
Defined.

Lemma loadCache_C6_witness :
  loadCache (λ _, Throw (mkError (Some "Unexpected token"%string)))
    (mkWorld [] None {[ STORAGE_KEY := "{oops"%string ]} [])
  = (Ok [], mkWorld [] None {[ STORAGE_KEY := "{oops"%string ]} [])
  ∧ loadCache (λ _, Throw (mkError None)) signed_out = (Ok [], signed_out).
Proof.
  split.
  - apply loadCache_C6. right. by exists "{oops"%string, (mkError (Some "Unexpected token"%string)).
  - apply loadCache_C6. by left.
Defined.



(** ** Numbers *)

Module NumberFacts.

Lemma round_sign (sx : bool) (m e : Z) (l : location) :
  match binary_round_aux prec emax sx m e l with
  | S754_nan => True
  | S754_zero s | S754_infinity s | S754_finite s _ _ => s = sx
  end.
Proof.
  unfold binary_round_aux.
  destruct (shr_fexp prec emax m e l) as [mrs' e'].
  destruct (shr_fexp prec emax _ e' loc_Exact) as [mrs'' e''].
  destruct (shr_m mrs''); [done| |done].
  by destruct (e'' <=? emax - prec).
Qed.

Lemma round_not_below_zero (m e : Z) (l : location) :
  not_below_zero (binary_round_aux prec emax false m e l).
Proof.
  pose proof (round_sign false m e l) as H.
  by destruct (binary_round_aux prec emax false m e l).
Qed.

Lemma SFmul_not_below_zero (x y : spec_float) :
  not_below_zero x → not_below_zero y → not_below_zero (SFmul prec emax x y).
Proof.
  destruct x as [sx|sx| |sx mx ex], y as [sy|sy| |sy my ey]; simpl; try done;
    intros -> ->; simpl; try done.
  apply round_not_below_zero.
Qed.

Lemma SFadd_not_below_zero (x y : spec_float) :
  not_below_zero x → not_below_zero y → not_below_zero (SFadd prec emax x y).
Proof.
  destruct x as [sx|sx| |sx mx ex], y as [sy|sy| |sy my ey]; simpl; try done.
  - by destruct sx, sy.
  - by intros -> ->.
  - intros -> ->. simpl. unfold binary_round.
    destruct (shl_align _ _ _) as [mz ez]. apply round_not_below_zero.
Qed.

Lemma not_below_zero_ltb (x : float) :
  not_below_zero (Prim2SF x) → negative x = false.
Proof.
  unfold negative. rewrite ltb_spec. change (Prim2SF 0) with (S754_zero false).
  by destruct (Prim2SF x) as [s|s| |s m e]; simpl; try done; intros ->.
Qed.

Lemma leb_zero_not_below_zero (x : float) :
  PrimFloat.leb zero x = true → not_below_zero (Prim2SF x).
Proof.
  rewrite leb_spec. change (Prim2SF zero) with (S754_zero false).
  by destruct (Prim2SF x) as [s|[|]| |[|] m e].
Qed.

Lemma ltb_zero_not_below_zero (x : float) :
  PrimFloat.ltb zero x = true → not_below_zero (Prim2SF x).
Proof.
  rewrite ltb_spec. change (Prim2SF zero) with (S754_zero false).
  by destruct (Prim2SF x) as [s|[|]| |[|] m e].
Qed.

(** A number above zero is truthy: it is neither [NaN] nor a zero. *)
Lemma ltb_zero_truthy (x : float) :
  PrimFloat.ltb zero x = true → JS.number_truthy x = true.
Proof.
  unfold JS.number_truthy, is_nan, is_zero.
  rewrite ltb_spec, !FloatAxioms.eqb_spec. change (Prim2SF zero) with (S754_zero false).
  unfold SFltb, SFeqb.
  destruct (Prim2SF x) as [s|[|]| |[|] m e]; simpl; try done.
  intros _. rewrite Z.compare_refl, Pos.compare_cont_refl. done.
Qed.

(** The sum of a product of two numbers and a number, none of them below
    zero, is not negative. *)
Lemma mul_add_not_negative (a b c : float) :
  PrimFloat.leb zero a = true → PrimFloat.leb zero b = true →
  PrimFloat.leb zero c = true →
  negative (a * b + c)%float = false.
Proof.
  intros Ha Hb Hc. apply not_below_zero_ltb.
  rewrite add_spec, mul_spec.
  apply SFadd_not_below_zero, leb_zero_not_below_zero; [|done].
  by apply SFmul_not_below_zero; apply leb_zero_not_below_zero.
Qed.

End NumberFacts.

(** ** Earnings *)

Lemma or0_nan (x : float) : is_nan x = true → JS.or0 x = zero.
Proof. unfold JS.or0, JS.number_truthy. by intros ->. Qed.

Lemma or0_zero (x : float) : is_zero x = true → JS.or0 x = zero.
Proof. unfold JS.or0, JS.number_truthy. intros ->. by rewrite orb_true_r. Qed.

Lemma or0_number (x : float) : is_nan x = false → is_zero x = false → JS.or0 x = x.
Proof. unfold JS.or0, JS.number_truthy. by intros -> ->. Qed.

Lemma or_Num (x : float) : JS.or_ (JS.Num x) (JS.Num zero) = JS.Num (JS.or0 x).
Proof. unfold JS.or_, JS.or0. simpl. by destruct (JS.number_truthy x). Qed.

(** A value above zero is truthy, so [m && m > 0] is [m > 0]. *)
Lemma gt_zero_truthy (m : JS.value) : JS.gt_num m 0 = true → JS.ToBoolean m = true.
Proof.
  unfold JS.gt_num. destruct m as [| |[|]|x|[|c s]]; simpl; try done;
    try (intros H; vm_compute in H; discriminate).
  apply NumberFacts.ltb_zero_truthy.
Qed.

Lemma computeEarnings_override (d r f m : JS.value) :
  JS.gt_num m 0 = true → computeEarnings d r f m = m.
Proof.
  intros H. unfold computeEarnings, JS.and_.
  rewrite (gt_zero_truthy m H), H. done.
Qed.

Lemma computeEarnings_derived (d r f m : JS.value) :
  JS.gt_num m 0 = false →
  computeEarnings d r f m = JS.Num (coerced d * coerced r + coerced f).
Proof.
  intros H. unfold computeEarnings, JS.and_. rewrite H.
  by destruct (JS.ToBoolean m) eqn:Hm; simpl; rewrite ?Hm.
Qed.

(** C2: the earnings computation returns the manual figure as it is when
    it is above zero, and otherwise distance × rate + fixed fee, where an
    operand that is not a number counts as zero; so
    [computeEarnings(10, 0.75, 5, 0) = 12.5],
    [computeEarnings(10, 0.75, 5, 20) = 20] and
    [computeEarnings("x", 0.75, 5, 0) = 5]. *)
Theorem computeEarnings_C2 :
  (∀ d r f m : JS.value,
     (JS.gt_num m 0 = true → computeEarnings d r f m = m)
     ∧ (JS.gt_num m 0 = false →
        computeEarnings d r f m = JS.Num (coerced d * coerced r + coerced f)))
  ∧ (∀ v : JS.value,
       (is_nan (JS.Number v) = true → coerced v = 0%float)
       ∧ (is_nan (JS.Number v) = false → is_zero (JS.Number v) = false →
          coerced v = JS.Number v)
       ∧ (is_zero (JS.Number v) = true → coerced v = 0%float))
  ∧ computeEarnings (JS.Num 10) (JS.Num 0.75) (JS.Num 5) (JS.Num 0) = JS.Num 12.5
  ∧ computeEarnings (JS.Num 10) (JS.Num 0.75) (JS.Num 5) (JS.Num 20) = JS.Num 20
  ∧ computeEarnings (JS.Str "x") (JS.Num 0.75) (JS.Num 5) (JS.Num 0) = JS.Num 5.
Proof.
  split; [|split; [|by vm_compute]].
  - intros d r f m. split.
    + apply computeEarnings_override.
    + apply computeEarnings_derived.
  - intros v. unfold coerced. split; [apply or0_nan|]. split.
    + apply or0_number.
    + apply or0_zero.
Qed.

(** C7, as the code has it: the earnings of an upserted record are the
    submitted figure when that is above zero, and otherwise, so when it is
    absent or zero, distance × rate + fixed fee; they are not negative
    whenever distance, rate and fixed fee, coerced, are not below zero.
    The record of a remote row has the number [Number(row.earnings ?? 0)]. *)
Theorem earnings_C7 (input : Draft) (i : string) (row : DeliveryRow.t) :
  let derived := (coerced (distanceKm input) * coerced (ratePerKm input)
                  + coerced (fixedFee input))%float in
  let rec := localRecord input i
               (computeEarnings (distanceKm input) (ratePerKm input)
                  (fixedFee input) (earnings input)) in
  (JS.gt_num (earnings input) 0 = true →
   earnings rec = earnings input ∧ negative (JS.Number (earnings rec)) = false)
  ∧ (JS.gt_num (earnings input) 0 = false → earnings rec = JS.Num derived)
  ∧ (earnings input = JS.Undefined ∨ earnings input = JS.Null
     ∨ earnings input = JS.Num 0 →
     earnings rec = JS.Num derived)
  ∧ (PrimFloat.leb 0 (coerced (distanceKm input)) = true →
     PrimFloat.leb 0 (coerced (ratePerKm input)) = true →
     PrimFloat.leb 0 (coerced (fixedFee input)) = true →
     negative (JS.Number (earnings rec)) = false)
  ∧ earnings (rowToDelivery row)
    = JS.Num (JS.Number (JS.nullish (DeliveryRow.earnings row) (JS.Num 0))).
Proof.
  intros derived rec. simpl.
  assert (JS.gt_num (earnings input) 0 = true →
          negative (JS.Number (earnings input)) = false) as Hpos.
  { intros H. by apply NumberFacts.not_below_zero_ltb, NumberFacts.ltb_zero_not_below_zero. }
  split; [|split; [|split; [|split; [|done]]]].
  - intros H. rewrite computeEarnings_override by done. auto.
  - apply computeEarnings_derived.
  - intros [->|[->| ->]]; by apply computeEarnings_derived.
  - intros Hd Hr Hf. destruct (JS.gt_num (earnings input) 0) eqn:H.
    + rewrite computeEarnings_override by done. auto.
    + rewrite computeEarnings_derived by done. simpl.
      by apply NumberFacts.mul_add_not_negative.
Qed.

(** The earnings of a record can be negative: a draft with a negative
    distance and no manual figure, and a remote row with a negative
    figure. *)
Lemma earnings_C7_counterexample :
  ¬ (∀ (input : Draft) (i : string),
       negative (JS.Number (earnings (localRecord input i
                   (computeEarnings (distanceKm input) (ratePerKm input)
                      (fixedFee input) (earnings input))))) = false)
  ∧ ¬ (∀ row : DeliveryRow.t, negative (JS.Number (earnings (rowToDelivery row))) = false).
Proof.
  split.
  - intros H. specialize (H (draft None "2025-08-10" (-10) 1 0 0) "c"%string).
    vm_compute in H. discriminate.
  - intros H.
    specialize (H (echo (draftToRow (draft None "2025-08-10" 1 1 0 0) "u1"
                           (JS.Num (-5)) (Some "c"%string)))).
    vm_compute in H. discriminate.
Qed.

Lemma earnings_C7_witness :
  earnings (localRecord (draft None "2025-08-10" 10 0.75 5 0) "c"
              (computeEarnings (JS.Num 10) (JS.Num 0.75) (JS.Num 5) (JS.Num 0)))
  = JS.Num 12.5
  ∧ negative 12.5 = false.
Proof.
  pose proof (earnings_C7 (draft None "2025-08-10" 10 0.75 5 0) "c" sample_row)
    as (_ & H2 & _ & H4 & _).
  split; [exact (H2 eq_refl)|exact (H4 eq_refl eq_refl eq_refl)].
Defined.

(** ** The filter [today] *)

(** With no query, [today] keeps the records whose date is the first ten
    characters of [toISOString()] of the clock: the calendar day in UTC,
    whatever the time zone of the device. *)
Lemma filtered_today (LocalTZA : Z → bool → Z) (invalid_time : Error) (now : Z)
    (customFrom customTo : string) (ds : list Delivery) :
  filtered LocalTZA invalid_time now "" today customFrom customTo ds
  = Ok (filter (λ d, dateISO d = JS.slice0 10 (Date.toISOString now)) ds).
Proof. reflexivity. Qed.

Lemma elem_of_filtered_today (LocalTZA : Z → bool → Z) (invalid_time : Error) (now : Z)
    (customFrom customTo : string) (ds : list Delivery) (d : Delivery) :
  (∃ l, filtered LocalTZA invalid_time now "" today customFrom customTo ds = Ok l
        ∧ d ∈ l)
  ↔ d ∈ ds ∧ dateISO d = JS.slice0 10 (Date.toISOString now).
Proof.
  rewrite filtered_today. split.
  - intros (l & [= <-] & Hd). apply list_elem_of_filter in Hd. tauto.
  - intros [Hd He]. eexists. split; [done|]. by apply list_elem_of_filter.
Qed.

(** Where the device's time zone is UTC, the two days are the same day. *)
Lemma localCalendarDay_utc (now : Z) :
  localCalendarDay (λ _ _, 0) now = JS.slice0 10 (Date.toISOString now).
Proof. unfold localCalendarDay, Date.LocalTime. by rewrite Z.add_0_r. Qed.

(** C8: the filter [today] is to keep the records of the calendar day of
    the device's local clock.  On a device two hours east of Greenwich,
    half an hour after midnight of 2025-08-11, that day is 2025-08-11, but
    the filter keeps the record of 2025-08-10 and drops the record of
    2025-08-11: it compares with the day in UTC. *)
Theorem today_filter_C8 :
  localCalendarDay east_two_hours half_past_midnight = "2025-08-11"%string
  ∧ filtered east_two_hours offline half_past_midnight "" today "" ""
      [job "a" "2025-08-11" 10 0.75 5 12.5; job "b" "2025-08-10" 4 1 0 4]
    = Ok [job "b" "2025-08-10" 4 1 0 4].
Proof. split; by vm_compute. Qed.

(** The filters [week] and [month] compute their bounds in local time
    ([getDay], [setDate], [new Date(year, month, 1)]) and write them with
    the same [iso]: an hour east of Greenwich, the month of 2025-08-15 runs
    from 2025-07-31 to 2025-08-30. *)
Example month_filter_east :
  filtered east_one_hour offline mid_august_noon "" month "" ""
    [job "a" "2025-08-31" 1 1 0 1; job "b" "2025-08-30" 1 1 0 1;
     job "c" "2025-08-01" 1 1 0 1; job "d" "2025-07-31" 1 1 0 1;
     job "e" "2025-07-30" 1 1 0 1]
  = Ok [job "b" "2025-08-30" 1 1 0 1; job "c" "2025-08-01" 1 1 0 1;
        job "d" "2025-07-31" 1 1 0 1].
Proof. by vm_compute. Qed.

Example week_range_utc :
  getWeekRange (λ _ _, 0) offline (Some half_past_midnight)
  = Ok ("2025-08-04"%string, "2025-08-10"%string).
Proof. by vm_compute. Qed.

(** ** More on [Array_sort]: fixed points, filters, ties *)

Section Array_sort_algebra.
Context {A : Type} (cmp : A → A → Z).
Hypothesis before_total : ∀ x y, before cmp x y ∨ before cmp y x.
Hypothesis before_trans : ∀ x y z, before cmp x y → before cmp y z → before cmp x z.

(** A sorted list is not moved. *)
Lemma Array_sort_sorted (l : list A) :
  StronglySorted (before cmp) l → Array_sort cmp l = l.
Proof.
  induction 1 as [|x l Hl IH Hx]; simpl; [done|].
  rewrite IH. by apply sort_insert_head.
Qed.

Lemma Array_sort_idemp (l : list A) :
  Array_sort cmp (Array_sort cmp l) = Array_sort cmp l.
Proof. by apply Array_sort_sorted, Array_sort_Sorted. Qed.

Lemma Forall_filter_keeps (Q P : A → Prop) `{∀ x, Decision (P x)} (l : list A) :
  Forall Q l → Forall Q (filter P l).
Proof.
  rewrite !Forall_forall. intros HQ x [_ Hx]%list_elem_of_filter. by apply HQ.
Qed.

Lemma StronglySorted_filter (R : relation A) (P : A → Prop) `{∀ x, Decision (P x)}
    (l : list A) :
  StronglySorted R l → StronglySorted R (filter P l).
Proof.
  induction 1 as [|x l Hl IH Hx]; [constructor|].
  rewrite filter_cons. destruct (decide (P x)); [|done].
  constructor; [done|]. by apply Forall_filter_keeps.
Qed.

(** Filtering commutes with the insertion into a sorted list, and so with
    the sort. *)
Lemma filter_sort_insert (P : A → Prop) `{∀ x, Decision (P x)} (x : A) (l : list A) :
  StronglySorted (before cmp) l →
  filter P (sort_insert cmp x l)
  = if decide (P x) then sort_insert cmp x (filter P l) else filter P l.
Proof.
  induction 1 as [|y l Hl IH Hy]; simpl.
  - rewrite filter_cons, filter_nil. by destruct (decide (P x)).
  - destruct (Z.leb_spec (cmp x y) 0) as [Hxy|Hxy].
    + rewrite filter_cons. destruct (decide (P x)); [|done].
      symmetry. apply sort_insert_head, Forall_filter_keeps. constructor; [done|].
      eapply Forall_impl; [exact Hy|]. intros z Hz. by eapply before_trans.
    + rewrite !(filter_cons _ y), IH.
      destruct (decide (P x)), (decide (P y)); try done.
      simpl. by destruct (Z.leb_spec (cmp x y) 0) as [?|_]; [lia|].
Qed.

Lemma filter_Array_sort (P : A → Prop) `{∀ x, Decision (P x)} (l : list A) :
  filter P (Array_sort cmp l) = Array_sort cmp (filter P l).
Proof.
  induction l as [|x l IH]; simpl; [done|].
  rewrite filter_sort_insert by by apply Array_sort_Sorted.
  rewrite filter_cons, IH. by destruct (decide (P x)).
Qed.

(** Elements that compare as equal keep the order they came in. *)
Lemma Array_sort_stable (P : A → Prop) `{∀ x, Decision (P x)} (l : list A) :
  (∀ x y, P x → P y → before cmp x y) →
  filter P (Array_sort cmp l) = filter P l.
Proof.
  intros HP. rewrite filter_Array_sort. apply Array_sort_sorted.
  induction l as [|x l IH]; [constructor|].
  rewrite filter_cons. destruct (decide (P x)); [|done].
  constructor; [done|]. apply Forall_forall.
  intros y [Hy _]%list_elem_of_filter. by apply HP.
Qed.
End Array_sort_algebra.

(** ** More on [sortByDateDesc] and the merge rule *)

Lemma byDateDesc_total (x y : Delivery) : before byDateDesc x y ∨ before byDateDesc y x.
Proof. rewrite !before_byDateDesc. apply dateDesc_total. Qed.

Lemma byDateDesc_trans (x y z : Delivery) :
  before byDateDesc x y → before byDateDesc y z → before byDateDesc x z.
Proof. rewrite !before_byDateDesc. apply dateDesc_trans. Qed.

Lemma StronglySorted_dateDesc (l : list Delivery) :
  StronglySorted dateDesc l ↔ StronglySorted (before byDateDesc) l.
Proof.
  split; induction 1 as [|x l Hl IH Hx]; constructor; try done;
    (eapply Forall_impl; [exact Hx|]); intros y; by rewrite before_byDateDesc.
Qed.

Lemma sortByDateDesc_sorted (l : list Delivery) :
  StronglySorted dateDesc l → sortByDateDesc l = l.
Proof.
  intros H. apply (Array_sort_sorted byDateDesc).
  by apply StronglySorted_dateDesc.
Qed.

Lemma filter_sortByDateDesc (P : Delivery → Prop) `{∀ x, Decision (P x)}
    (l : list Delivery) :
  filter P (sortByDateDesc l) = sortByDateDesc (filter P l).
Proof. apply filter_Array_sort; [apply byDateDesc_total|apply byDateDesc_trans]. Qed.

Lemma filter_id_twice (i : string) (ds : list Delivery) :
  filter (λ d, id d ≠ i) (filter (λ d, id d ≠ i) ds) = filter (λ d, id d ≠ i) ds.
Proof.
  induction ds as [|d ds IH]; [done|].
  rewrite filter_cons. destruct (decide (id d ≠ i)) as [Hd|Hd]; [|done].
  rewrite filter_cons. destruct (decide (id d ≠ i)); [|done]. by f_equal.
Qed.

(** Once a record is merged, the records of its identifier are the
    record alone: filtering them out gives the others, sorted. *)
Lemma filter_merge (rec : Delivery) (ds : list Delivery) :
  filter (λ d, id d ≠ id rec) (merge rec ds)
  = sortByDateDesc (filter (λ d, id d ≠ id rec) ds).
Proof.
  unfold merge. rewrite filter_sortByDateDesc, filter_cons.
  destruct (decide (id rec ≠ id rec)); [done|]. by rewrite filter_id_twice.
Qed.

(** Of two merges under one identifier the second is the one that
    counts. *)
Lemma merge_merge (rec1 rec2 : Delivery) (ds : list Delivery) :
  id rec1 = id rec2 → merge rec2 (merge rec1 ds) = merge rec2 ds.
Proof.
  intros Hid. unfold merge at 1. rewrite <- Hid, filter_merge, Hid.
  unfold merge, sortByDateDesc. simpl.
  by rewrite (Array_sort_idemp byDateDesc byDateDesc_total byDateDesc_trans).
Qed.

Lemma merge_Sorted (rec : Delivery) (ds : list Delivery) :
  StronglySorted dateDesc (merge rec ds).
Proof. apply sortByDateDesc_Sorted. Qed.

(** X1: [sortByDateDesc] is stable: the records of one date stand in the
    order they had in the list that was sorted. *)
Theorem sortByDateDesc_stable (date : string) (l : list Delivery) :
  filter (λ d, dateISO d = date) (sortByDateDesc l)
  = filter (λ d, dateISO d = date) l.
Proof.
  apply Array_sort_stable; [apply byDateDesc_total|apply byDateDesc_trans|].
  intros x y Hx Hy. apply before_byDateDesc. unfold dateDesc.
  rewrite Hx, Hy. apply StringOrder.ge_str_refl.
Qed.

(** X2: sorting a list that is sorted, or sorting twice, changes nothing. *)
Theorem sortByDateDesc_fixed (l : list Delivery) :
  (StronglySorted dateDesc l → sortByDateDesc l = l)
  ∧ sortByDateDesc (sortByDateDesc l) = sortByDateDesc l.
Proof.
  split; [apply sortByDateDesc_sorted|].
  apply sortByDateDesc_sorted, sortByDateDesc_Sorted.
Qed.

Lemma length_filter_present (i : string) (ds : list Delivery) :
  NoDup (id <$> ds) → i ∈ id <$> ds →
  S (length (filter (λ d, id d ≠ i) ds)) = length ds.
Proof.
  induction ds as [|d ds IH]; [by intros _ ?%elem_of_nil|].
  rewrite fmap_cons, NoDup_cons, elem_of_cons. intros [Hd Hds] Hin.
  rewrite filter_cons. destruct (decide (id d ≠ i)) as [Hne|Heq].
  - destruct Hin as [->|Hin]; [done|]. cbn [length]. f_equal. by apply IH.
  - apply dec_stable in Heq. subst i. cbn [length]. f_equal. f_equal.
    by apply filter_fresh.
Qed.

(** X3: a merge under an identifier that a record of the list has replaces
    that record, and the list is as long as before; under an identifier
    that no record has, the list is one longer. *)
Theorem merge_length (rec : Delivery) (ds : list Delivery) :
  NoDup (id <$> ds) →
  length (merge rec ds)
  = if decide (id rec ∈ id <$> ds) then length ds else S (length ds).
Proof.
  intros Hnd. rewrite merge_Permutation. cbn [length].
  destruct (decide (id rec ∈ id <$> ds)) as [Hin|Hin].
  - by apply length_filter_present.
  - f_equal. f_equal. by apply filter_fresh.
Qed.

(** ** How the operations compose, and what they keep *)

Section Composition.
Variable JSON_parse : string → Result Parsed.
Variable JSON_stringify : list Delivery → string.
Variable select_deliveries : string → Reply (list DeliveryRow.t).
Variable upsert_delivery : Payload.t → Reply DeliveryRow.t.
Variable delete_delivery : string → string → Reply unit.
Variable null_access : Error.

Local Abbreviation sync := (syncFromRemote JSON_stringify select_deliveries null_access).
Local Abbreviation upsert := (upsertDelivery JSON_stringify upsert_delivery null_access).
Local Abbreviation delete := (deleteDelivery JSON_stringify delete_delivery).
Local Abbreviation load := (loadCache JSON_parse).
Local Abbreviation initial := (initialLoad JSON_parse).

(** What [deleteDelivery] returns and leaves, with the notice of a remote
    failure if there was one. *)
Lemma deleteDelivery_run (id' : string) (w : World) :
  ∃ notices,
    delete id' w
    = (Ok (), mkWorld (filter (λ d, id d ≠ id') (deliveries w)) (session w)
                (<[STORAGE_KEY := JSON_stringify (filter (λ d, id d ≠ id') (deliveries w))]>
                   (storage w))
                notices)
    ∧ (notices = alerts w
       ∨ ∃ e, notices
              = ("Delete failed"%string, message_or e "Unable to delete in Supabase")
                :: alerts w).
Proof.
  run. destruct (session w) as [sess|] eqn:Hs; simpl.
  - destruct (delete_delivery id' (user_id (user sess))) as [e|data [e|]];
      simpl; rewrite Hs; eexists; (split; [done|]); eauto.
  - rewrite Hs. eexists. split; [done|]. by left.
Qed.

Lemma deleteDelivery_deliveries (id' : string) (w : World) :
  deliveries (after (delete id') w) = filter (λ d, id d ≠ id') (deliveries w).
Proof.
  destruct (deleteDelivery_run id' w) as (notices & He & _).
  unfold after. by rewrite He.
Qed.

(** What [initialLoad] leaves: the world as it was, or the sorted cache in
    memory. *)
Lemma initialLoad_run (w : World) :
  initial w = (Ok (), w)
  ∨ ∃ l, load w = (Ok l, w)
         ∧ initial w
           = (Ok (), mkWorld (sortByDateDesc l) (session w) (storage w) (alerts w)).
Proof.
  assert (∃ l, load w = (Ok l, w)) as [l Hl].
  { run. destruct (storage w !! STORAGE_KEY) as [text|]; [|by eexists].
    destruct (String.eqb text ""); [by eexists|].
    destruct (JSON_parse text) as [[l|]|e]; by eexists. }
  unfold initialLoad, bind. rewrite Hl. destruct l as [|d l]; [by left|].
  right. by exists (d :: l).
Qed.

(** X4: every operation that writes the records leaves them sorted
    descending by date: [upsertDelivery] and a successful sync always do,
    [deleteDelivery], a failed sync and the first load keep a sorted list
    sorted. *)
Theorem operations_keep_sorted (w : World) (alertOnError : bool) (uuid : string)
    (input : Draft) (id' : string) :
  StronglySorted dateDesc (deliveries w) →
  StronglySorted dateDesc (deliveries (after (sync alertOnError) w))
  ∧ StronglySorted dateDesc (deliveries (after (upsert uuid input) w))
  ∧ StronglySorted dateDesc (deliveries (after (delete id') w))
  ∧ StronglySorted dateDesc (deliveries (after initial w)).
Proof.
  intros Hw. split; [|split; [|split]].
  - destruct (session w) as [sess|] eqn:Hs.
    + destruct (succeeded (select_deliveries (user_id (user sess)))) as [rows|] eqn:Hr.
      * destruct (syncFromRemote_success JSON_stringify select_deliveries null_access
                    alertOnError w sess rows Hs Hr) as (_ & -> & _).
        apply sortByDateDesc_Sorted.
      * by destruct (syncFromRemote_failure JSON_stringify select_deliveries null_access
                       alertOnError w sess Hs Hr) as (_ & -> & _).
    + unfold after.
      by rewrite (syncFromRemote_signed_out JSON_stringify select_deliveries
                    null_access alertOnError w Hs).
  - destruct (upsertDelivery_merge JSON_stringify upsert_delivery null_access
                uuid input w) as (rec & _ & -> & _).
    apply merge_Sorted.
  - rewrite deleteDelivery_deliveries. by apply StronglySorted_filter.
  - unfold after. destruct (initialLoad_run w) as [->|(l & _ & ->)]; [done|].
    apply sortByDateDesc_Sorted.
Qed.

(** X5: [upsertDelivery] and [deleteDelivery] keep the identifiers of the
    records pairwise distinct. *)
Theorem operations_keep_distinct (w : World) (uuid : string) (input : Draft)
    (id' : string) :
  NoDup (id <$> deliveries w) →
  NoDup (id <$> deliveries (after (upsert uuid input) w))
  ∧ NoDup (id <$> deliveries (after (delete id') w)).
Proof.
  intros Hw. split.
  - destruct (upsertDelivery_merge JSON_stringify upsert_delivery null_access
                uuid input w) as (rec & _ & -> & _).
    by apply merge_NoDup.
  - rewrite deleteDelivery_deliveries. by apply NoDup_fmap_filter.
Qed.

(** X6: after [upsertDelivery] and after [deleteDelivery] the cache holds
    the text of the records in memory, and [syncFromRemote] keeps it so:
    the cache and the memory do not drift apart. *)
Theorem operations_keep_consistent (w : World) (alertOnError : bool) (uuid : string)
    (input : Draft) (id' : string) :
  consistent JSON_stringify (after (upsert uuid input) w)
  ∧ consistent JSON_stringify (after (delete id') w)
  ∧ (consistent JSON_stringify w →
     consistent JSON_stringify (after (sync alertOnError) w)).
Proof.
  unfold consistent. split; [|split].
  - destruct (upsertDelivery_merge JSON_stringify upsert_delivery null_access
                uuid input w) as (rec & _ & -> & ->). done.
  - destruct (deleteDelivery_run id' w) as (notices & He & _).
    unfold after, cached. rewrite He. simpl. by rewrite lookup_insert_eq.
  - intros Hw. destruct (session w) as [sess|] eqn:Hs.
    + destruct (succeeded (select_deliveries (user_id (user sess)))) as [rows|] eqn:Hr.
      * destruct (syncFromRemote_success JSON_stringify select_deliveries null_access
                    alertOnError w sess rows Hs Hr) as (_ & Hd & Hc).
        unfold cached. rewrite Hc, Hd. by rewrite lookup_insert_eq.
      * destruct (syncFromRemote_failure JSON_stringify select_deliveries null_access
                    alertOnError w sess Hs Hr) as (_ & Hd & Hc).
        unfold cached. by rewrite Hc, Hd.
    + unfold after.
      by rewrite (syncFromRemote_signed_out JSON_stringify select_deliveries
                    null_access alertOnError w Hs).
Qed.

(** [upsertDelivery] keeps the session, and the record it merges does not
    depend on the records in memory: in two worlds of one session it is
    the same record. *)
Lemma upsertDelivery_session (uuid : string) (input : Draft) (w : World) :
  session (after (upsert uuid input) w) = session w.
Proof.
  destruct (session w) as [sess|] eqn:Hs.
  - destruct (succeeded (upsert_delivery
                (draftToRow input (user_id (user sess))
                   (computeEarnings (distanceKm input) (ratePerKm input)
                      (fixedFee input) (earnings input))
                   (Some (default uuid (id input)))))) as [row|] eqn:Hr.
    + unfold after.
      by rewrite (upsertDelivery_remote_success JSON_stringify upsert_delivery
                    null_access uuid input w sess row Hs Hr).
    + destruct (upsertDelivery_remote_failure JSON_stringify upsert_delivery
                  null_access uuid input w sess Hs Hr) as [e He].
      unfold after. by rewrite He.
  - unfold after.
    by rewrite (upsertDelivery_signed_out JSON_stringify upsert_delivery
                  null_access uuid input w Hs).
Qed.

Lemma upsertDelivery_same_record (uuid : string) (input : Draft) (w w' : World) :
  session w = session w' →
  ∃ rec : Delivery,
    (result (upsert uuid input) w = Ok (id rec)
     ∧ deliveries (after (upsert uuid input) w) = merge rec (deliveries w)
     ∧ cached (after (upsert uuid input) w)
       = Some (JSON_stringify (merge rec (deliveries w))))
    ∧ (result (upsert uuid input) w' = Ok (id rec)
       ∧ deliveries (after (upsert uuid input) w') = merge rec (deliveries w')
       ∧ cached (after (upsert uuid input) w')
         = Some (JSON_stringify (merge rec (deliveries w')))).
Proof.
  intros Hss.
  set (computed := computeEarnings (distanceKm input) (ratePerKm input)
                     (fixedFee input) (earnings input)).
  destruct (session w) as [sess|] eqn:Hs; symmetry in Hss.
  - destruct (succeeded (upsert_delivery
                (draftToRow input (user_id (user sess)) computed
                   (Some (default uuid (id input)))))) as [row|] eqn:Hr.
    + exists (rowToDelivery row). unfold result, after, cached.
      rewrite (upsertDelivery_remote_success JSON_stringify upsert_delivery
                 null_access uuid input w sess row Hs Hr).
      rewrite (upsertDelivery_remote_success JSON_stringify upsert_delivery
                 null_access uuid input w' sess row Hss Hr).
      simpl. by rewrite !lookup_insert_eq.
    + destruct (upsertDelivery_remote_failure JSON_stringify upsert_delivery
                  null_access uuid input w sess Hs Hr) as [e He].
      destruct (upsertDelivery_remote_failure JSON_stringify upsert_delivery
                  null_access uuid input w' sess Hss Hr) as [e' He'].
      exists (localRecord input (default uuid (id input)) computed).
      unfold result, after, cached. rewrite He, He'. simpl.
      by rewrite !lookup_insert_eq.
  - exists (localRecord input (default uuid (id input)) computed).
    unfold result, after, cached.
    rewrite (upsertDelivery_signed_out JSON_stringify upsert_delivery
               null_access uuid input w Hs).
    rewrite (upsertDelivery_signed_out JSON_stringify upsert_delivery
               null_access uuid input w' Hss).
    simpl. by rewrite !lookup_insert_eq.
Qed.

(** X7: of two saves that return one identifier the second is the one
    that counts: the records in memory and the text in the cache are
    those that the second save alone leaves when it is made on the state
    before both, where it returns the same identifier.  The first save
    leaves no trace in them. *)
Theorem upsert_last_wins (w : World) (uuid1 uuid2 : string) (input1 input2 : Draft)
    (i : string) :
  result (upsert uuid1 input1) w = Ok i →
  result (upsert uuid2 input2) (after (upsert uuid1 input1) w) = Ok i →
  result (upsert uuid2 input2) w = Ok i
  ∧ deliveries (after (upsert uuid2 input2) (after (upsert uuid1 input1) w))
    = deliveries (after (upsert uuid2 input2) w)
  ∧ cached (after (upsert uuid2 input2) (after (upsert uuid1 input1) w))
    = cached (after (upsert uuid2 input2) w).
Proof.
  intros H1 H2.
  destruct (upsertDelivery_merge JSON_stringify upsert_delivery null_access
              uuid1 input1 w) as (rec1 & Hr1 & Hd1 & _).
  destruct (upsertDelivery_same_record uuid2 input2 w (after (upsert uuid1 input1) w))
    as (rec2 & (Hr & Hd & Hc) & (Hr' & Hd' & Hc')).
  { symmetry. apply upsertDelivery_session. }
  rewrite H1 in Hr1. rewrite H2 in Hr'. simplify_eq.
  assert (merge rec2 (deliveries (after (upsert uuid1 input1) w))
          = merge rec2 (deliveries w)) as Hm.
  { rewrite Hd1. apply merge_merge. congruence. }
  split; [congruence|]. split.
  - by rewrite Hd', Hd, Hm.
  - by rewrite Hc', Hc, Hm.
Qed.

(** X8: saving a record under an identifier that no record has and then
    deleting that identifier gives back the list, when the list was
    sorted. *)
Theorem upsert_then_delete (w : World) (uuid : string) (input : Draft) (i : string) :
  StronglySorted dateDesc (deliveries w) →
  i ∉ id <$> deliveries w →
  result (upsert uuid input) w = Ok i →
  deliveries (after (delete i) (after (upsert uuid input) w)) = deliveries w.
Proof.
  intros Hs Hi Hr.
  destruct (upsertDelivery_merge JSON_stringify upsert_delivery null_access
              uuid input w) as (rec & Hr' & Hd & _).
  rewrite Hr in Hr'. simplify_eq.
  rewrite deleteDelivery_deliveries, Hd, filter_merge.
  rewrite sortByDateDesc_sorted by by apply StronglySorted_filter.
  by apply filter_fresh.
Qed.

(** X9: deleting an identifier that no record has leaves the records as
    they are, and deleting twice is deleting once. *)
Theorem delete_absent (w : World) (i : string) :
  (i ∉ id <$> deliveries w → deliveries (after (delete i) w) = deliveries w)
  ∧ deliveries (after (delete i) (after (delete i) w))
    = deliveries (after (delete i) w).
Proof.
  split.
  - intros Hi. rewrite deleteDelivery_deliveries. by apply filter_fresh.
  - rewrite !deleteDelivery_deliveries. apply filter_id_twice.
Qed.

(** X10: a mounted screen shows what was saved: when the cache holds the
    text of a sorted list and [JSON.parse] reads that text back, the first
    load of a new screen puts that list in memory. *)
Theorem restart_shows_cache (w : World) :
  consistent JSON_stringify w →
  StronglySorted dateDesc (deliveries w) →
  JSON_stringify (deliveries w) ≠ EmptyString →
  JSON_parse (JSON_stringify (deliveries w)) = Ok (ParsedArray (deliveries w)) →
  deliveries (after initial (restart w)) = deliveries w.
Proof.
  intros Hc Hs Hne Hp.
  assert (load (restart w) = (Ok (deliveries w), restart w)) as Hl.
  { apply loadCache_array with (text := JSON_stringify (deliveries w)); done. }
  unfold after, initialLoad, bind. rewrite Hl.
  destruct (deliveries w) as [|d l] eqn:Hd; [done|].
  unfold setDeliveries. cbn [snd deliveries].
  by apply sortByDateDesc_sorted.
Qed.

(** X11: a sync whose fetch fails says so once when it is to, and is
    silent when it is not to: then the world is as it was.  The notice is
    titled "Sync failed" and its text is the message of the error that was
    thrown, or "Please try again later" when the error has none: the error
    is the rejection of the request, or the [error] of the reply, or, when
    the reply has neither [error] nor [data], the [TypeError] of reading
    [data.map]. *)
Theorem sync_failure_notice (w : World) (sess : Session) :
  session w = Some sess →
  let reply := select_deliveries (user_id (user sess)) in
  let noticed (e : Error) : Result () * World :=
    (Ok (), mkWorld (deliveries w) (session w) (storage w)
              (("Sync failed"%string, default "Please try again later"%string (message e))
               :: alerts w)) in
  (succeeded reply = None → sync false w = (Ok (), w))
  ∧ (∀ e, reply = Rejected e → sync true w = noticed e)
  ∧ (∀ data e, reply = Resolved data (Some e) → sync true w = noticed e)
  ∧ (reply = Resolved None None → sync true w = noticed null_access).
Proof.
  intros Hs. cbv zeta. split; [|split; [|split]].
  - intros Hf. run. rewrite Hs.
    destruct (succeeded_None_data_of _ w Hf) as [[e He]|He];
      unfold data_of in He; by rewrite He.
  - intros e He. run. rewrite Hs, He. simpl. by rewrite Hs.
  - intros data e He. run. rewrite Hs, He. simpl. by rewrite Hs.
  - intros He. run. rewrite Hs, He. simpl. by rewrite Hs.
Qed.

(** X12: [syncFromRemote] does nothing when no user is signed in: the remote
    store is not asked and the world is as it was. *)
Theorem sync_signed_out (w : World) (alertOnError : bool) :
  session w = None →
  ∀ other_store : string → Reply (list DeliveryRow.t),
    syncFromRemote JSON_stringify other_store null_access alertOnError w = (Ok (), w).
Proof. intros Hs other. run. by rewrite Hs. Qed.

(** X13: [upsertDelivery] shows one notice, "Save failed", when the remote
    write fails, and none when it succeeds or when no user is signed in;
    it never throws and never changes the session. *)
Theorem upsert_notice (w : World) (uuid : string) (input : Draft) :
  (∃ i, result (upsert uuid input) w = Ok i)
  ∧ session (after (upsert uuid input) w) = session w
  ∧ match session w with
    | None => alerts (after (upsert uuid input) w) = alerts w
    | Some sess =>
        match succeeded (upsert_delivery
                (draftToRow input (user_id (user sess))
                   (computeEarnings (distanceKm input) (ratePerKm input)
                      (fixedFee input) (earnings input))
                   (Some (default uuid (id input))))) with
        | Some _ => alerts (after (upsert uuid input) w) = alerts w
        | None =>
            ∃ e, alerts (after (upsert uuid input) w)
                 = ("Save failed"%string, message_or e "Unable to save to Supabase")
                   :: alerts w
        end
    end.
Proof.
  destruct (session w) as [sess|] eqn:Hs.
  - destruct (succeeded _) as [row|] eqn:Hr.
    + unfold result, after.
      rewrite (upsertDelivery_remote_success JSON_stringify upsert_delivery
                 null_access uuid input w sess row Hs Hr). simpl. eauto.
    + destruct (upsertDelivery_remote_failure JSON_stringify upsert_delivery
                  null_access uuid input w sess Hs Hr) as [e He].
      unfold result, after. rewrite He. simpl. eauto.
  - unfold result, after.
    rewrite (upsertDelivery_signed_out JSON_stringify upsert_delivery
               null_access uuid input w Hs). simpl. eauto.
Qed.


End Composition.

(** ** The list filter *)

Module FilterFacts.

Lemma lower_char_idemp (c : ascii) : JS.lower_char (JS.lower_char c) = JS.lower_char c.
Proof. by destruct c as [[] [] [] [] [] [] [] []]. Qed.

Lemma is_white_lower_char (c : ascii) : JS.is_white (JS.lower_char c) = JS.is_white c.
Proof. by destruct c as [[] [] [] [] [] [] [] []]. Qed.

Lemma toLowerCase_idemp (s : string) :
  JS.toLowerCase (JS.toLowerCase s) = JS.toLowerCase s.
Proof. induction s as [|c s IH]; simpl; [done|]. by rewrite lower_char_idemp, IH. Qed.

Lemma trim_start_lower (s : string) :
  JS.trim_start (JS.toLowerCase s) = JS.toLowerCase (JS.trim_start s).
Proof.
  induction s as [|c s IH]; simpl; [done|].
  rewrite is_white_lower_char. by destruct (JS.is_white c).
Qed.

Lemma trim_end_lower (s : string) :
  JS.trim_end (JS.toLowerCase s) = JS.toLowerCase (JS.trim_end s).
Proof.
  induction s as [|c s IH]; simpl; [done|].
  rewrite IH, is_white_lower_char.
  destruct (JS.trim_end s); simpl; [|done]. by destruct (JS.is_white c).
Qed.

Lemma trim_lower (s : string) : JS.trim (JS.toLowerCase s) = JS.toLowerCase (JS.trim s).
Proof. unfold JS.trim. by rewrite trim_start_lower, trim_end_lower. Qed.

Lemma trim_start_idemp (s : string) : JS.trim_start (JS.trim_start s) = JS.trim_start s.
Proof.
  induction s as [|c s IH]; simpl; [done|].
  destruct (JS.is_white c) eqn:Hc; [done|]. simpl. by rewrite Hc.
Qed.

Lemma trim_end_idemp (s : string) : JS.trim_end (JS.trim_end s) = JS.trim_end s.
Proof.
  induction s as [|c s IH]; simpl; [done|].
  destruct (JS.trim_end s) as [|a t] eqn:Ht.
  - destruct (JS.is_white c) eqn:Hc; simpl; [done|]. by rewrite Hc.
  - simpl in *. by rewrite IH.
Qed.

Lemma trim_start_trim_end (s : string) :
  JS.trim_start (JS.trim_end s) = JS.trim_end (JS.trim_start s).
Proof.
  induction s as [|c s IH]; simpl; [done|].
  destruct (JS.is_white c) eqn:Hc.
  - rewrite <- IH. destruct (JS.trim_end s) as [|a t]; simpl; by rewrite ?Hc.
  - simpl. destruct (JS.trim_end s) as [|a t]; simpl; by rewrite ?Hc.
Qed.

Lemma trim_idemp (s : string) : JS.trim (JS.trim s) = JS.trim s.
Proof.
  unfold JS.trim.
  by rewrite trim_start_trim_end, trim_start_idemp, trim_end_idemp.
Qed.

Lemma prefix_lower (q s : string) :
  String.prefix q s = true →
  String.prefix (JS.toLowerCase q) (JS.toLowerCase s) = true.
Proof.
  revert s. induction q as [|a q IH]; intros [|b s]; simpl; try done.
  destruct (ascii_dec a b) as [->|]; [|done]. intros H.
  destruct (ascii_dec (JS.lower_char b) (JS.lower_char b)); [|done]. by apply IH.
Qed.

Lemma includes_lower (s q : string) :
  JS.includes s q = true → JS.includes (JS.toLowerCase s) (JS.toLowerCase q) = true.
Proof.
  induction s as [|c s IH]; simpl.
  - rewrite !orb_false_r. apply (prefix_lower q "").
  - intros [H|H]%orb_true_iff; apply orb_true_iff.
    + left. by apply (prefix_lower q (String c s)).
    + right. by apply IH.
Qed.

End FilterFacts.

Lemma filter_none {A} (P : A → Prop) `{∀ x, Decision (P x)} (l : list A) :
  Forall (λ x, ¬ P x) l → filter P l = [].
Proof.
  induction 1 as [|x l Hx _ IH]; [done|].
  rewrite filter_cons. by destruct (decide (P x)).
Qed.

Lemma filter_of_nil {A} (P Q : A → Prop) `{∀ x, Decision (P x)} `{∀ x, Decision (Q x)}
    (l : list A) :
  filter P l = [] → filter Q (filter P l) = [].
Proof. by intros ->. Qed.

(** X15: whatever the filter and the query, [filtered] invents nothing and
    keeps the order: the list it returns is a sublist of the records. *)
Theorem filtered_sublist (LocalTZA : Z → bool → Z) (invalid_time : Error) (now : Z)
    (query : string) (dateFilter : DateFilter) (customFrom customTo : string)
    (ds l : list Delivery) :
  filtered LocalTZA invalid_time now query dateFilter customFrom customTo ds = Ok l →
  sublist l ds.
Proof.
  unfold filtered.
  repeat match goal with
         | |- context [match ?x with _ => _ end] =>
             first [is_var x; fail 1 | destruct x eqn:?]
         end;
    destruct dateFilter; intros; simplify_eq;
    repeat match goal with
           | H : context [match ?x with _ => _ end] |- _ => destruct x eqn:?
           end;
    simplify_eq;
    try done; try apply sublist_filter;
    try (etrans; [apply sublist_filter|apply sublist_filter]).
Qed.

(** X16: the search takes the query without regard to the case of its
    letters or to the white space around it. *)
Theorem search_normalizes_query (LocalTZA : Z → bool → Z) (invalid_time : Error)
    (now : Z) (query : string) (dateFilter : DateFilter) (customFrom customTo : string)
    (ds : list Delivery) :
  filtered LocalTZA invalid_time now (JS.toLowerCase query) dateFilter
    customFrom customTo ds
  = filtered LocalTZA invalid_time now query dateFilter customFrom customTo ds
  ∧ filtered LocalTZA invalid_time now (JS.trim query) dateFilter
      customFrom customTo ds
    = filtered LocalTZA invalid_time now query dateFilter customFrom customTo ds.
Proof.
  unfold filtered. split.
  - by rewrite FilterFacts.trim_lower, FilterFacts.toLowerCase_idemp.
  - by rewrite FilterFacts.trim_idemp.
Qed.

(** X17: under the filter [all], a record is listed when the query, trimmed,
    occurs in its make, model, registration, pick-up, drop-off and notes
    joined by spaces, whatever the case of the letters on either side. *)
Theorem search_finds (LocalTZA : Z → bool → Z) (invalid_time : Error) (now : Z)
    (query : string) (customFrom customTo : string) (ds l : list Delivery)
    (d : Delivery) :
  d ∈ ds →
  JS.includes
    (JS.toLowerCase
       (JS.join " " [Some (carMake d); Some (carModel d); Some (reg d);
                     Some (pickup d); Some (dropoff d); notes d]))
    (JS.toLowerCase (JS.trim query)) = true →
  filtered LocalTZA invalid_time now query all customFrom customTo ds = Ok l →
  d ∈ l.
Proof.
  intros Hd Hinc. unfold filtered.
  destruct (String.eqb _ ""); intros [= <-]; [done|].
  apply list_elem_of_filter. split; [|done]. unfold haystack. by rewrite Hinc.
Qed.

(** X18: a custom range whose end is before its start lists nothing. *)
Theorem custom_inverted_range (LocalTZA : Z → bool → Z) (invalid_time : Error)
    (now : Z) (query : string) (customFrom customTo : string) (ds : list Delivery) :
  customFrom ≠ EmptyString → customTo ≠ EmptyString →
  JS.lt_str customTo customFrom = true →
  filtered LocalTZA invalid_time now query custom customFrom customTo ds = Ok [].
Proof.
  intros Hf Ht Hlt. unfold filtered.
  destruct (String.eqb_spec customFrom ""); [done|].
  destruct (String.eqb_spec customTo ""); [done|]. simpl.
  assert (filter (λ d : Delivery, isWithin (dateISO d) customFrom customTo) ds = [])
    as Hnil.
  { apply filter_none, Forall_forall. intros d _ Hw.
    apply Is_true_true, andb_true_iff in Hw as [Hge Hle].
    unfold JS.ge_str, JS.le_str, JS.lt_str in *.
    apply negb_true_iff in Hge, Hle.
    destruct (String.ltb customFrom (dateISO d)) eqn:Hcmp.
    - rewrite (StringOrder.ltb_trans _ _ _ Hlt Hcmp) in Hle. done.
    - rewrite (StringOrder.ltb_connex _ _ Hge Hcmp) in Hle. congruence. }
  destruct (String.eqb _ ""); f_equal; [exact Hnil|].
  by apply filter_of_nil.
Qed.

(** X19: a custom range from a day to the same day lists the records of
    that day, as the filter [today] does for the day of the clock. *)
Theorem custom_single_day (LocalTZA : Z → bool → Z) (invalid_time : Error)
    (now : Z) (date : string) (ds : list Delivery) :
  date ≠ EmptyString →
  filtered LocalTZA invalid_time now "" custom date date ds
  = Ok (filter (λ d, dateISO d = date) ds).
Proof.
  intros Hd. unfold filtered. destruct (String.eqb_spec date ""); [done|]. simpl.
  f_equal. apply list_filter_iff. intros d. unfold isWithin, JS.ge_str, JS.le_str.
  split.
  - intros [Hge Hle]%Is_true_true%andb_true_iff.
    apply negb_true_iff in Hge, Hle. by apply StringOrder.ltb_connex.
  - intros ->. apply Is_true_true. by rewrite StringOrder.ltb_irrefl.
Qed.

(** ** Totals and payloads *)

Module TotalsFacts.

(** A number not below zero divided by a number above zero is not below
    zero. *)
Lemma div_not_below_zero (a b : float) :
  not_below_zero (Prim2SF a) → PrimFloat.ltb 0 b = true →
  not_below_zero (Prim2SF (a / b)).
Proof.
  rewrite div_spec, ltb_spec. change (Prim2SF 0) with (S754_zero false).
  unfold SF64div.
  destruct (Prim2SF a) as [sx|sx| |sx mx ex], (Prim2SF b) as [sy|[|]| |[|] my ey];
    simpl; intros Hx Hy; subst; simpl; try done.
  match goal with
  | |- context [SFdiv_core_binary ?p ?e ?m1 ?e1 ?m2 ?e2] =>
      destruct (SFdiv_core_binary p e m1 e1 m2 e2) as [[mz ez] lz]
  end.
  apply NumberFacts.round_not_below_zero.
Qed.

Lemma or0_not_nan (x : float) : is_nan (JS.or0 x) = false.
Proof.
  unfold JS.or0, JS.number_truthy. destruct (is_nan x) eqn:Hx; simpl; [done|].
  by destruct (is_zero x).
Qed.

(** Rounding a mantissa that is not negative does not give [NaN]. *)
Lemma shr_1_not_negative (mrs : shr_record) : 0 ≤ shr_m mrs → 0 ≤ shr_m (shr_1 mrs).
Proof. destruct mrs as [[|[p|p|]|p] r s]; simpl; lia. Qed.

Lemma iter_shr_1_not_negative (p : positive) (mrs : shr_record) :
  0 ≤ shr_m mrs → 0 ≤ shr_m (SpecFloat.iter_pos shr_1 p mrs).
Proof.
  revert mrs. induction p as [p IH|p IH|]; simpl; intros mrs H.
  - by apply IH, IH, shr_1_not_negative.
  - by apply IH, IH.
  - by apply shr_1_not_negative.
Qed.

Lemma shr_fexp_not_negative (m e : Z) (l : location) :
  0 ≤ m → 0 ≤ shr_m (shr_fexp prec emax m e l).1.
Proof.
  intros H. unfold shr_fexp, shr.
  assert (0 ≤ shr_m (shr_record_of_loc m l)) as H' by (by destruct l as [|[| |]]).
  destruct (_ - e) as [|p|p]; simpl; [done| |done].
  by apply iter_shr_1_not_negative.
Qed.

Lemma round_nearest_even_not_negative (m : Z) (l : location) :
  0 ≤ m → 0 ≤ round_nearest_even m l.
Proof. destruct l as [|[| |]]; simpl; try destruct (Z.even m); lia. Qed.

Lemma round_not_nan (sx : bool) (m e : Z) (l : location) :
  0 ≤ m → binary_round_aux prec emax sx m e l ≠ S754_nan.
Proof.
  intros H. unfold binary_round_aux.
  pose proof (shr_fexp_not_negative m e l H) as H1.
  destruct (shr_fexp prec emax m e l) as [mrs' e']. simpl in H1.
  pose proof (shr_fexp_not_negative _ e' loc_Exact
                (round_nearest_even_not_negative _ (loc_of_shr_record mrs') H1)) as H2.
  destruct (shr_fexp prec emax _ e' loc_Exact) as [mrs'' e'']. simpl in H2.
  destruct (shr_m mrs'') as [|p|p]; [done| |lia].
  by destruct (e'' <=? emax - prec).
Qed.

(** The sum of two numbers that are zero or more is a number that is zero
    or more: it is not [NaN]. *)
Lemma add_not_below_zero (a b : float) :
  PrimFloat.leb 0 a = true → PrimFloat.leb 0 b = true →
  PrimFloat.leb 0 (a + b) = true.
Proof.
  rewrite !leb_spec, add_spec. change (Prim2SF 0) with (S754_zero false).
  destruct (Prim2SF a) as [sx|[|]| |[|] mx ex], (Prim2SF b) as [sy|[|]| |[|] my ey];
    simpl; try done.
  - by destruct sx, sy.
  - intros _ _. unfold binary_round.
    destruct (shl_align _ _ _) as [mz ez].
    pose proof (NumberFacts.round_sign false (Z.pos mz) ez loc_Exact) as Hs.
    pose proof (round_not_nan false (Z.pos mz) ez loc_Exact) as Hn.
    destruct (binary_round_aux prec emax false (Z.pos mz) ez loc_Exact);
      subst; simpl; try done.
    by destruct Hn.
Qed.

Lemma foldl_add_not_below_zero (f : Delivery → float) (l : list Delivery) (a : float) :
  PrimFloat.leb 0 a = true →
  Forall (λ d, PrimFloat.leb 0 (f d) = true) l →
  PrimFloat.leb 0 (foldl (λ acc d, (acc + f d)%float) a l) = true.
Proof.
  intros Ha Hl. revert a Ha. induction Hl as [|d l Hd _ IH]; intros a Ha; simpl; [done|].
  by apply IH, add_not_below_zero.
Qed.

(** A number that is zero or more is above zero or is a zero. *)
Lemma not_above_zero_is_zero (x : float) :
  PrimFloat.leb 0 x = true → PrimFloat.ltb 0 x = false → is_zero x = true.
Proof.
  unfold is_zero. rewrite leb_spec, ltb_spec, FloatAxioms.eqb_spec.
  change (Prim2SF 0) with (S754_zero false).
  by destruct (Prim2SF x) as [s|[|]| |[|] m e].
Qed.

End TotalsFacts.

(** X20: for records whose earnings, expense and distance are zero or
    more, the sums of [computeTotals] and the net income are numbers that
    are zero or more, never [NaN], and the jobs counted are the records.
    The average per kilometre divides only by a distance above zero: then
    it is the net income divided by the distance, and it is not negative;
    otherwise the distance is a zero and the average is 0, not the [NaN]
    or the infinity of a division by zero. *)
Theorem computeTotals_not_negative (l : list Delivery) :
  Forall (λ d, PrimFloat.leb 0 (coerced (earnings d)) = true) l →
  Forall (λ d, PrimFloat.leb 0 (coerced (transportExpense d)) = true) l →
  Forall (λ d, PrimFloat.leb 0 (coerced (distanceKm d)) = true) l →
  PrimFloat.leb 0 (totalEarnings (computeTotals l)) = true
  ∧ PrimFloat.leb 0 (totalExpenses (computeTotals l)) = true
  ∧ PrimFloat.leb 0 (net (computeTotals l)) = true
  ∧ PrimFloat.leb 0 (totalKm (computeTotals l)) = true
  ∧ negative (avgPerKm (computeTotals l)) = false
  ∧ (if PrimFloat.ltb 0 (totalKm (computeTotals l))
     then avgPerKm (computeTotals l)
          = (net (computeTotals l) / totalKm (computeTotals l))%float
     else is_zero (totalKm (computeTotals l)) = true
          ∧ avgPerKm (computeTotals l) = 0%float)
  ∧ totalJobs (computeTotals l) = length l.
Proof.
  intros He Hx Hk. simpl.
  pose proof (TotalsFacts.foldl_add_not_below_zero (λ d, coerced (earnings d)) l 0
                eq_refl He) as HE.
  pose proof (TotalsFacts.foldl_add_not_below_zero (λ d, coerced (transportExpense d)) l 0
                eq_refl Hx) as HX.
  pose proof (TotalsFacts.foldl_add_not_below_zero (λ d, coerced (distanceKm d)) l 0
                eq_refl Hk) as HK.
  pose proof (TotalsFacts.add_not_below_zero _ _ HE HX) as HN.
  split; [exact HE|]. split; [exact HX|]. split; [exact HN|]. split; [exact HK|].
  destruct (PrimFloat.ltb 0 _) eqn:Hpos.
  - split; [|done].
    apply NumberFacts.not_below_zero_ltb, TotalsFacts.div_not_below_zero; [|done].
    by apply NumberFacts.leb_zero_not_below_zero.
  - split; [done|]. split; [|done]. split; [|done].
    by apply TotalsFacts.not_above_zero_is_zero.
Qed.

(** X21: the payload of an upsert has numbers in its four numeric columns,
    never [NaN], whatever the draft holds there; and its [id] column is
    never the empty string. *)
Theorem draftToRow_sound (input : Draft) (userId : string) (computed : JS.value)
    (id' : option string) :
  is_nan (Payload.distance_km (draftToRow input userId computed id')) = false
  ∧ is_nan (Payload.rate_per_km (draftToRow input userId computed id')) = false
  ∧ is_nan (Payload.fixed_fee (draftToRow input userId computed id')) = false
  ∧ is_nan (Payload.transport_expense (draftToRow input userId computed id')) = false
  ∧ Payload.id (draftToRow input userId computed id') ≠ Some EmptyString.
Proof.
  simpl. repeat split; try apply TotalsFacts.or0_not_nan.
  destruct id' as [i|]; [|done]. by destruct (String.eqb_spec i ""); [|congruence].
Qed.

(** ** The handlers of the form and of the details sheet *)

Lemma findById_fresh (i : string) (ds : list Delivery) :
  i ∉ id <$> ds → Home.findById ds i = None.
Proof.
  unfold Home.findById. induction ds as [|d ds IH]; [done|].
  rewrite fmap_cons, not_elem_of_cons. intros [Hd Hds]. simpl.
  destruct (String.eqb_spec (id d) i); [congruence|]. by apply IH.
Qed.

Lemma findById_present (sel : Delivery) (ds : list Delivery) :
  NoDup (id <$> ds) → sel ∈ ds → Home.findById ds (id sel) = Some sel.
Proof.
  unfold Home.findById. induction ds as [|d ds IH]; [by intros _ ?%elem_of_nil|].
  rewrite fmap_cons, NoDup_cons, elem_of_cons. intros [Hd Hds] Hin. simpl.
  destruct (String.eqb_spec (id d) (id sel)) as [Heq|Hne].
  - destruct Hin as [->|Hin]; [done|].
    destruct Hd. rewrite Heq. by apply list_elem_of_fmap_2.
  - destruct Hin as [->|Hin]; [done|]. by apply IH.
Qed.

Section HandlerFacts.
Variable JSON_stringify : list Delivery → string.
Variable upsert_delivery : Payload.t → Reply DeliveryRow.t.
Variable null_access : Error.

Local Abbreviation upsert := (upsertDelivery JSON_stringify upsert_delivery null_access).
Local Abbreviation onSubmit := (Home.onSubmit JSON_stringify upsert_delivery null_access).
Local Abbreviation onSetStatus :=
  (Home.onSetStatus JSON_stringify upsert_delivery null_access).

(** X22: a form without a date or without a registration is not saved: the
    remote store is not asked, the records, the storage and the form stay
    as they are, and one notice says what is missing. *)
Theorem submit_needs_date_and_reg (uuid : string) (s : Home.Screen) :
  dateISO (Home.draft s) = EmptyString ∨ reg (Home.draft s) = EmptyString →
  (∀ other_store,
     Home.onSubmit JSON_stringify other_store null_access uuid s = onSubmit uuid s)
  ∧ deliveries (Home.world (onSubmit uuid s)) = deliveries (Home.world s)
  ∧ storage (Home.world (onSubmit uuid s)) = storage (Home.world s)
  ∧ Home.formVisible (onSubmit uuid s) = Home.formVisible s
  ∧ Home.draft (onSubmit uuid s) = Home.draft s
  ∧ ∃ notice, alerts (Home.world (onSubmit uuid s)) = notice :: alerts (Home.world s)
              ∧ (notice.1 = "Missing date"%string ∨ notice.1 = "Missing reg"%string).
Proof.
  intros H. unfold Home.onSubmit.
  destruct (String.eqb_spec (dateISO (Home.draft s)) "") as [Hd|Hd].
  - repeat split; try done. eexists. split; [done|]. by left.
  - destruct H as [H|H]; [done|]. rewrite H. simpl.
    repeat split; try done. eexists. split; [done|]. by right.
Qed.

(** X23: after a new delivery is saved from the form, the form is closed
    and the record is in the list, but the details sheet is not opened:
    the handler looks the identifier up in the list of the render it was
    made by, which does not hold the new record. *)
Theorem submit_new_record (uuid : string) (s : Home.Screen) (i : string) :
  dateISO (Home.draft s) ≠ EmptyString →
  reg (Home.draft s) ≠ EmptyString →
  result (upsert uuid (Home.draft s)) (Home.world s) = Ok i →
  i ∉ id <$> deliveries (Home.world s) →
  Home.formVisible (onSubmit uuid s) = false
  ∧ (∃ rec, rec ∈ deliveries (Home.world (onSubmit uuid s)) ∧ id rec = i)
  ∧ Home.selected (onSubmit uuid s) = Home.selected s
  ∧ Home.jobDetailsVisible (onSubmit uuid s) = Home.jobDetailsVisible s.
Proof.
  intros Hd Hr Hres Hi. unfold Home.onSubmit.
  destruct (String.eqb_spec (dateISO (Home.draft s)) ""); [done|].
  destruct (String.eqb_spec (reg (Home.draft s)) ""); [done|].
  destruct (upsertDelivery_merge JSON_stringify upsert_delivery null_access
              uuid (Home.draft s) (Home.world s)) as (rec & Hres' & Hds & _).
  unfold result, after in *.
  destruct (upsert uuid (Home.draft s) (Home.world s)) as [[i'|e] w'];
    simpl in *; simplify_eq.
  unfold Home.openDetailsById. rewrite (findById_fresh _ _ Hi). simpl.
  repeat split; try done. exists rec. split; [|done].
  rewrite Hds. apply elem_of_merge. by left.
Qed.

(** X24: after the status of the selected record is changed (signed out),
    the list holds the record with the new status, but the details sheet
    still holds the record as it was: the handler takes it from the list
    of the render it was made by. *)
Theorem status_change_stale (uuid : string) (st : Status) (s : Home.Screen)
    (sel : Delivery) :
  Home.selected s = Some sel →
  sel ∈ deliveries (Home.world s) →
  NoDup (id <$> deliveries (Home.world s)) →
  session (Home.world s) = None →
  (onSetStatus uuid st s).1 = Ok ()
  ∧ Home.selected (onSetStatus uuid st s).2 = Some sel
  ∧ ∃ rec, rec ∈ deliveries (Home.world (onSetStatus uuid st s).2)
           ∧ id rec = id sel ∧ status rec = st.
Proof.
  intros Hsel Hin Hnd Hs. unfold Home.onSetStatus. rewrite Hsel.
  rewrite (upsertDelivery_signed_out JSON_stringify upsert_delivery null_access
             uuid (Home.withStatus sel st) (Home.world s) Hs).
  rewrite (findById_present sel _ Hnd Hin). simpl.
  split; [done|]. split; [done|].
  eexists. split; [apply elem_of_merge; by left|]. done.
Qed.

End HandlerFacts.

(** ** The draft of a new delivery and the figures of the bar *)

(** X25: a delivery whose date is left as the form prefilled it is listed
    under [today] at that moment, in every time zone: the draft and the
    filter take the day from the same [iso]. *)
Theorem prefilled_date_listed_today (JSON_stringify : list Delivery → string)
    (upsert_delivery : Payload.t → Reply DeliveryRow.t) (null_access : Error)
    (LocalTZA : Z → bool → Z) (invalid_time : Error) (now : Z) (w : World)
    (uuid : string) (d input : Draft) :
  emptyDraft invalid_time now = Ok d →
  dateISO input = dateISO d →
  session w = None →
  ∃ rec l,
    result (upsertDelivery JSON_stringify upsert_delivery null_access uuid input) w
    = Ok (id rec)
    ∧ filtered LocalTZA invalid_time now "" today "" ""
        (deliveries
           (after (upsertDelivery JSON_stringify upsert_delivery null_access uuid input) w))
      = Ok l
    ∧ rec ∈ l.
Proof.
  intros Hd Hdate Hs. unfold emptyDraft in Hd. simpl in Hd. simplify_eq.
  unfold result, after.
  rewrite (upsertDelivery_signed_out JSON_stringify upsert_delivery null_access
             uuid input w Hs). simpl.
  simpl in Hdate.
  exists (localRecord input (default uuid (id input))
            (computeEarnings (distanceKm input) (ratePerKm input)
               (fixedFee input) (earnings input))).
  eexists. split; [done|]. rewrite filtered_today. split; [done|].
  apply list_elem_of_filter. split; [done|]. apply elem_of_merge. by left.
Qed.

(** X26: the figure "Today" of the bar is the total, earnings and expenses,
    of the records that the filter [today] lists, and the figure
    "Expenses" is the sum over all the records the bar is given. *)
Theorem stats_today_is_filter_total (LocalTZA : Z → bool → Z) (invalid_time : Error)
    (now : Z) (ds : list Delivery) (st : Stats) :
  StatsBar LocalTZA invalid_time now ds = Ok st →
  ∃ l, filtered LocalTZA invalid_time now "" today "" "" ds = Ok l
       ∧ todayIncome st = (sumE l + sumX l)%float
       ∧ exp st = sumX ds.
Proof.
  unfold StatsBar. rewrite filtered_today.
  change (iso invalid_time (Some now))
    with (Ok (A:=string) (JS.slice0 10 (Date.toISOString now))).
  cbv beta iota.
  destruct (getWeekRange _ _ _) as [[startISO endISO]|e]; [|done].
  destruct (iso _ _) as [mStart|e]; [|done].
  destruct (iso _ _) as [mEnd|e]; [|done].
  intros [= <-]. eexists. split; [reflexivity|]. split; reflexivity.
Qed.

(** ** Days and dates *)

Module DateFacts.

(** [MakeDay] undoes [civil]: the day of the date of a day is the day. *)
Lemma MakeDay_civil (day : Z) :
  Date.MakeDay (Date.civil day).1.1 (Date.civil day).1.2 (Date.civil day).2 = day.
Proof.
  unfold Date.civil. cbv zeta. cbn [fst snd].
  set (era := (day + 719468) `div` 146097).
  set (doe := day + 719468 - era * 146097).
  assert (0 ≤ doe < 146097) as Hdoe
    by (unfold doe, era; Z.div_mod_to_equations; lia).
  set (yoe := (doe - doe `div` 1460 + doe `div` 36524 - doe `div` 146096) `div` 365).
  assert (0 ≤ yoe < 400 ∧ 0 ≤ doe - (365 * yoe + yoe `div` 4 - yoe `div` 100) ≤ 365)
    as [Hyoe Hdoy] by (unfold yoe; Z.div_mod_to_equations; lia).
  set (doy := doe - (365 * yoe + yoe `div` 4 - yoe `div` 100)) in *.
  set (mp := (5 * doy + 2) `div` 153).
  assert (0 ≤ mp ≤ 11) as Hmp by (unfold mp; Z.div_mod_to_equations; lia).
  set (m := if mp <? 10 then mp + 2 else mp - 10).
  assert (0 ≤ m ≤ 11) as Hm by (unfold m; destruct (Z.ltb_spec mp 10); lia).
  assert ((if 1 <? m then m - 2 else m + 10) = mp) as Hinv.
  { unfold m. destruct (Z.ltb_spec mp 10).
    - destruct (Z.ltb_spec 1 (mp + 2)); lia.
    - destruct (Z.ltb_spec 1 (mp - 10)); lia. }
  unfold Date.MakeDay.
  rewrite (Z.div_small m 12), (Z.mod_small m 12), Hinv by lia.
  assert ((if m <=? 1
           then yoe + era * 400 + (if m <=? 1 then 1 else 0) + 0 - 1
           else yoe + era * 400 + (if m <=? 1 then 1 else 0) + 0)
          = yoe + era * 400) as -> by (destruct (m <=? 1); lia).
  assert ((yoe + era * 400) `div` 400 = era) as ->.
  { symmetry. apply (Z.div_unique _ _ _ yoe); lia. }
  replace (yoe + era * 400 - era * 400) with yoe by lia.
  unfold doy, doe. lia.
Qed.

Lemma MakeDay_shift (year month date k : Z) :
  Date.MakeDay year month (date + k) = Date.MakeDay year month date + k.
Proof. unfold Date.MakeDay. lia. Qed.

End DateFacts.

(** The day that [MakeDay] gives the year and the month of a time and a
    day of the month [n]: the day of the time, moved by [n] less its day
    of the month. *)
Lemma MakeDay_fields (l n : Z) :
  Date.MakeDay (Date.YearFromTime l) (Date.MonthFromTime l) n
  = Date.Day l + (n - Date.DateFromTime l).
Proof.
  pose proof (DateFacts.MakeDay_civil (Date.Day l)) as H.
  unfold Date.YearFromTime, Date.MonthFromTime, Date.DateFromTime.
  remember (Date.civil (Date.Day l)).1.1 as y eqn:Hy.
  remember (Date.civil (Date.Day l)).1.2 as m eqn:Hm.
  remember (Date.civil (Date.Day l)).2 as d eqn:Hd.
  remember (Date.Day l) as day eqn:Hday.
  clear Hy Hm Hd Hday.
  pose proof (DateFacts.MakeDay_shift y m d (n - d)) as Hs.
  replace (d + (n - d)) with n in Hs by lia.
  congruence.
Qed.

Lemma MakeDate_shift (l k : Z) :
  Date.MakeDate (Date.Day l + k) (Date.TimeWithinDay l) = l + k * Date.msPerDay.
Proof.
  unfold Date.MakeDate, Date.Day, Date.TimeWithinDay.
  remember Date.msPerDay as ms eqn:Hms.
  assert (0 < ms) as Hpos by (subst ms; unfold Date.msPerDay; lia). clear Hms.
  pose proof (Z.div_mod l ms ltac:(lia)) as Hdm.
  lia.
Qed.

(** In a time zone of a fixed offset [c], [setDate] moves a date by whole
    days. *)
Lemma setDate_fixed_zone (c t k : Z) :
  Z.abs (t + k * Date.msPerDay) ≤ 8640000000000000 →
  Date.setDate (λ _ _, c) (Some t) (Some (Date.DateFromTime (t + c) + k))
  = Some (t + k * Date.msPerDay).
Proof.
  intros Hclip. unfold Date.setDate. cbn [mbind option_bind].
  unfold Date.LocalTime, Date.UTC.
  rewrite MakeDay_fields, MakeDate_shift.
  remember (Date.DateFromTime (t + c)) as D eqn:HD. clear HD.
  replace (t + c + (D + k - D) * Date.msPerDay - c) with (t + k * Date.msPerDay)
    by (remember Date.msPerDay as ms; clear; lia).
  unfold Date.TimeClip.
  remember (t + k * Date.msPerDay) as u eqn:Hu. clear Hu.
  destruct (Z.leb_spec (Z.abs u) 8640000000000000) as [_|Hgt]; [done|].
  exfalso; lia.
Qed.

Lemma WeekDay_shift (l k : Z) :
  Date.WeekDay (l + k * Date.msPerDay) = (Date.WeekDay l + k) `mod` 7.
Proof.
  unfold Date.WeekDay, Date.Day.
  rewrite Z.div_add by (unfold Date.msPerDay; lia).
  remember (l `div` Date.msPerDay) as q. clear.
  Z.div_mod_to_equations; lia.
Qed.

(** X27: in a time zone of a fixed offset, the week of [getWeekRange] runs
    from the moment as many whole days back as the local day is past
    Monday to the moment six days later, a local Monday and a local
    Sunday; the two bounds are the days of these moments in UTC. *)
Theorem week_range_fixed_zone (c now : Z) (invalid_time : Error) :
  let k := (Date.WeekDay (now + c) + 6) `mod` 7 in
  Z.abs (now - k * Date.msPerDay) ≤ 8640000000000000 →
  Z.abs (now + (6 - k) * Date.msPerDay) ≤ 8640000000000000 →
  getWeekRange (λ _ _, c) invalid_time (Some now)
  = Ok (iso_day (now - k * Date.msPerDay), iso_day (now + (6 - k) * Date.msPerDay))
  ∧ Date.WeekDay (now + c - k * Date.msPerDay) = 1
  ∧ Date.WeekDay (now + c + (6 - k) * Date.msPerDay) = 0.
Proof.
  intros k Hmon Hsun.
  assert (0 ≤ k ≤ 6) as Hk by (unfold k; Z.div_mod_to_equations; lia).
  split.
  - unfold getWeekRange.
    cbn [Date.getDay Date.getDate fmap option_fmap option_map mbind option_bind compose].
    unfold Date.LocalTime. fold k.
    replace (Date.DateFromTime (now + c) - k) with (Date.DateFromTime (now + c) + - k)
      by (remember (Date.DateFromTime (now + c)) as D; clear; lia).
    rewrite setDate_fixed_zone
      by (replace (now + - k * Date.msPerDay) with (now - k * Date.msPerDay)
            by (remember Date.msPerDay as ms; clear; lia); done).
    change ((λ n : Z, n + 6) <$> Date.getDate (λ _ _, c) (Some (now + - k * Date.msPerDay)))
      with (Some (Date.DateFromTime (now + - k * Date.msPerDay + c) + 6)).
    rewrite setDate_fixed_zone
      by (replace (now + - k * Date.msPerDay + 6 * Date.msPerDay)
            with (now + (6 - k) * Date.msPerDay)
            by (remember Date.msPerDay as ms; clear; lia); done).
    unfold iso, iso_day.
    replace (now + - k * Date.msPerDay + 6 * Date.msPerDay)
      with (now + (6 - k) * Date.msPerDay)
      by (remember Date.msPerDay as ms; clear; lia).
    replace (now + - k * Date.msPerDay) with (now - k * Date.msPerDay)
      by (remember Date.msPerDay as ms; clear; lia).
    reflexivity.
  - replace (now + c - k * Date.msPerDay) with (now + c + (- k) * Date.msPerDay)
      by (remember Date.msPerDay as ms; clear; lia).
    rewrite !WeekDay_shift. fold k.
    remember (Date.WeekDay (now + c)) as wd eqn:Hwd.
    assert (0 ≤ wd < 7) as Hwdb
      by (subst wd; unfold Date.WeekDay; apply Z.mod_pos_bound; lia).
    clear Hwd Hmon Hsun Hk. subst k.
    split; Z.div_mod_to_equations; lia.
Qed.

(** ** Sample runs of the properties above *)

Lemma two_jobs_sorted : StronglySorted dateDesc two_jobs.
Proof. repeat constructor. Qed.

Lemma two_jobs_distinct : NoDup (id <$> two_jobs).
Proof. by apply (bool_decide_unpack _). Qed.

Lemma merge_length_witness :
  length (merge (job "b" "2025-08-11" 3 1 0 3) two_jobs) = 2%nat
  ∧ length (merge (job "c" "2025-08-11" 3 1 0 3) two_jobs) = 3%nat.
Proof.
  split.
  - exact (merge_length (job "b" "2025-08-11" 3 1 0 3) two_jobs two_jobs_distinct).
  - exact (merge_length (job "c" "2025-08-11" 3 1 0 3) two_jobs two_jobs_distinct).
Defined.

Lemma operations_keep_sorted_witness :
  StronglySorted dateDesc
    (deliveries (after (upsertDelivery ids_text (λ _, Rejected offline) offline "c"
                          (draft None "2025-08-12" 1 1 0 0)) signed_in))
  ∧ StronglySorted dateDesc
      (deliveries (after (deleteDelivery ids_text (λ _ _, Rejected offline) "a")
                     signed_in)).
Proof.
  pose proof (operations_keep_sorted parse_two_jobs ids_text (λ _, Rejected offline)
                (λ _, Rejected offline) (λ _ _, Rejected offline) offline
                signed_in true "c" (draft None "2025-08-12" 1 1 0 0) "a"
                two_jobs_sorted) as (_ & H2 & H3 & _).
  split; [exact H2|exact H3].
Defined.

Lemma operations_keep_distinct_witness :
  NoDup (id <$> deliveries
                  (after (upsertDelivery ids_text (λ _, Rejected offline) offline "c"
                            (draft (Some "a"%string) "2025-08-12" 1 1 0 0)) signed_in))
  ∧ NoDup (id <$> deliveries
                    (after (deleteDelivery ids_text (λ _ _, Rejected offline) "a")
                       signed_in)).
Proof.
  exact (operations_keep_distinct ids_text (λ _, Rejected offline)
           (λ _ _, Rejected offline) offline signed_in "c"
           (draft (Some "a"%string) "2025-08-12" 1 1 0 0) "a" two_jobs_distinct).
Defined.

Lemma upsert_last_wins_witness :
  deliveries
    (after (upsertDelivery ids_text (λ _, Rejected offline) offline "e"
              (draft (Some "c"%string) "2025-08-08" 2 2 0 0))
       (after (upsertDelivery ids_text (λ _, Rejected offline) offline "c"
                 (draft None "2025-08-12" 1 1 0 0)) signed_out))
  = two_jobs ++ [job "c" "2025-08-08" 2 2 0 4].
Proof.
  exact (proj1 (proj2 (upsert_last_wins ids_text (λ _, Rejected offline) offline
                         signed_out "c" "e" (draft None "2025-08-12" 1 1 0 0)
                         (draft (Some "c"%string) "2025-08-08" 2 2 0 0) "c"
                         eq_refl eq_refl))).
Defined.

Lemma upsert_then_delete_witness :
  deliveries
    (after (deleteDelivery ids_text (λ _ _, Rejected offline) "c")
       (after (upsertDelivery ids_text (λ _, Rejected offline) offline "c"
                 (draft None "2025-08-12" 1 1 0 0)) signed_in))
  = two_jobs.
Proof.
  apply (upsert_then_delete ids_text (λ _, Rejected offline) (λ _ _, Rejected offline)
           offline signed_in "c" (draft None "2025-08-12" 1 1 0 0) "c").
  - exact two_jobs_sorted.
  - by apply (bool_decide_unpack _).
  - reflexivity.
Defined.

Lemma restart_shows_cache_witness :
  deliveries (after (initialLoad parse_two_jobs) (restart saved_world)) = two_jobs.
Proof.
  apply (restart_shows_cache parse_two_jobs ids_text saved_world).
  - reflexivity.
  - exact two_jobs_sorted.
  - discriminate.
  - reflexivity.
Defined.

Lemma sync_failure_notice_witness :
  syncFromRemote ids_text (λ _, Rejected offline) offline false signed_in
  = (Ok (), signed_in)
  ∧ syncFromRemote ids_text (λ _, Rejected offline) offline true signed_in
    = (Ok (), mkWorld two_jobs (session signed_in) ∅
                [("Sync failed"%string, "Network request failed"%string)])
  ∧ syncFromRemote ids_text (λ _, Resolved None None) (mkError None) true signed_in
    = (Ok (), mkWorld two_jobs (session signed_in) ∅
                [("Sync failed"%string, "Please try again later"%string)]).
Proof.
  pose proof (sync_failure_notice ids_text (λ _, Rejected offline) offline signed_in _
                eq_refl) as (H1 & H2 & _).
  pose proof (sync_failure_notice ids_text (λ _, Resolved None None) (mkError None)
                signed_in _ eq_refl) as (_ & _ & _ & H4).
  split; [exact (H1 eq_refl)|]. split; [exact (H2 offline eq_refl)|exact (H4 eq_refl)].
Defined.

Lemma sync_signed_out_witness :
  syncFromRemote ids_text (λ _, Resolved (Some [sample_row]) None) offline true signed_out
  = (Ok (), signed_out).
Proof.
  exact (sync_signed_out ids_text offline signed_out true eq_refl
           (λ _, Resolved (Some [sample_row]) None)).
Defined.


Lemma filtered_sublist_witness :
  sublist [job "a" "2025-08-10" 10 0.75 5 12.5] two_jobs.
Proof.
  exact (filtered_sublist east_two_hours offline half_past_midnight "" today "" ""
           two_jobs [job "a" "2025-08-10" 10 0.75 5 12.5] eq_refl).
Defined.

Lemma search_finds_witness : job "b" "2025-08-09" 4 1 0 4 ∈ two_jobs.
Proof.
  apply (search_finds east_two_hours offline half_past_midnight "  yORK " "" ""
           two_jobs two_jobs (job "b" "2025-08-09" 4 1 0 4));
    [apply list_elem_of_further, list_elem_of_here|reflexivity|reflexivity].
Defined.

Lemma custom_inverted_range_witness :
  filtered east_two_hours offline half_past_midnight "" custom
    "2025-08-10" "2025-08-01" two_jobs
  = Ok [].
Proof.
  apply custom_inverted_range; [discriminate|discriminate|reflexivity].
Defined.

Lemma custom_single_day_witness :
  filtered east_two_hours offline half_past_midnight "" custom
    "2025-08-09" "2025-08-09" two_jobs
  = Ok (filter (λ d, dateISO d = "2025-08-09"%string) two_jobs).
Proof. apply custom_single_day. discriminate. Defined.

Lemma computeTotals_not_negative_witness :
  PrimFloat.leb 0 (net (computeTotals two_jobs)) = true
  ∧ avgPerKm (computeTotals two_jobs) = (16.5 / 14)%float
  ∧ avgPerKm (computeTotals []) = 0%float.
Proof.
  pose proof (computeTotals_not_negative two_jobs) as H.
  destruct H as (_ & _ & H3 & _ & _ & H6 & _); [repeat constructor..|].
  pose proof (computeTotals_not_negative []) as H'.
  destruct H' as (_ & _ & _ & _ & _ & H6' & _); [constructor..|].
  split; [exact H3|]. split; [exact H6|exact (proj2 H6')].
Defined.

Lemma submit_needs_date_and_reg_witness :
  deliveries (Home.world (Home.onSubmit ids_text (λ _, Rejected offline) offline "c"
                            (form_screen (draft None "" 1 1 0 0))))
  = two_jobs.
Proof.
  pose proof (submit_needs_date_and_reg ids_text (λ _, Rejected offline) offline "c"
                (form_screen (draft None "" 1 1 0 0)) (or_introl eq_refl))
    as (_ & H & _).
  exact H.
Defined.

Lemma submit_new_record_witness :
  Home.formVisible (Home.onSubmit ids_text (λ _, Rejected offline) offline "c"
                      (form_screen (draft None "2025-08-12" 1 1 0 0))) = false
  ∧ Home.jobDetailsVisible (Home.onSubmit ids_text (λ _, Rejected offline) offline "c"
                              (form_screen (draft None "2025-08-12" 1 1 0 0))) = false.
Proof.
  pose proof (submit_new_record ids_text (λ _, Rejected offline) offline "c"
                (form_screen (draft None "2025-08-12" 1 1 0 0)) "c") as H.
  destruct H as (H1 & _ & _ & H4);
    [discriminate|discriminate|reflexivity|by apply (bool_decide_unpack _)|].
  split; [exact H1|exact H4].
Defined.

Lemma status_change_stale_witness :
  Home.selected (Home.onSetStatus ids_text (λ _, Rejected offline) offline "c" completed
                   (details_screen (job "a" "2025-08-10" 10 0.75 5 12.5))).2
  = Some (job "a" "2025-08-10" 10 0.75 5 12.5)
  ∧ ∃ rec, rec ∈ deliveries
                   (Home.world
                      (Home.onSetStatus ids_text (λ _, Rejected offline) offline "c"
                         completed
                         (details_screen (job "a" "2025-08-10" 10 0.75 5 12.5))).2)
           ∧ id rec = "a"%string ∧ status rec = completed.
Proof.
  pose proof (status_change_stale ids_text (λ _, Rejected offline) offline "c" completed
                (details_screen (job "a" "2025-08-10" 10 0.75 5 12.5))
                (job "a" "2025-08-10" 10 0.75 5 12.5) eq_refl) as H.
  destruct H as (_ & H2 & H3);
    [apply list_elem_of_here|exact two_jobs_distinct|reflexivity|].
  split; [exact H2|exact H3].
Defined.

Lemma prefilled_date_listed_today_witness :
  ∃ rec l,
    result (upsertDelivery ids_text (λ _, Rejected offline) offline "c"
              (draft None "2025-08-10" 1 1 0 0)) signed_out
    = Ok (id rec)
    ∧ filtered east_two_hours offline half_past_midnight "" today "" ""
        (deliveries
           (after (upsertDelivery ids_text (λ _, Rejected offline) offline "c"
                     (draft None "2025-08-10" 1 1 0 0)) signed_out))
      = Ok l
    ∧ rec ∈ l.
Proof.
  exact (prefilled_date_listed_today ids_text (λ _, Rejected offline) offline
           east_two_hours offline half_past_midnight signed_out "c" _
           (draft None "2025-08-10" 1 1 0 0) eq_refl eq_refl eq_refl).
Defined.

Lemma stats_today_is_filter_total_witness :
  ∃ l, filtered east_two_hours offline half_past_midnight "" today "" "" two_jobs = Ok l
       ∧ 12.5%float = (sumE l + sumX l)%float
       ∧ 0%float = sumX two_jobs.
Proof.
  refine (stats_today_is_filter_total east_two_hours offline half_past_midnight
            two_jobs (mkStats 12.5%float 12.5%float 16.5%float 0%float) _).
  by vm_compute.
Defined.

Lemma week_range_fixed_zone_witness :
  getWeekRange east_two_hours offline (Some half_past_midnight)
  = Ok ("2025-08-10"%string, "2025-08-16"%string).
Proof.
  refine (proj1 (week_range_fixed_zone 7200000 half_past_midnight offline _ _));
    by vm_compute.
Defined.
